(** * IntrusionDetection: the serial reader of [app.py]

    A shallow embedding of the serial-handling part of [src/app.py]
    (the reader loop [read_serial_data], [update_calibration_progress],
    [process_serial_message], [log_event], [connect_serial] and
    [disconnect_serial]; of the handlers around it, [handle_connect],
    [clear_events] and the [total_events] query of [get_stats]) and the
    properties of the specification that concern it.

    Modelling choices.
    - The module-level globals, the list of [socketio.emit] calls, the rows
      committed to the database and the wall clock form one record, [World];
      the functions of [app.py] are computations in a state monad over it.
    - [datetime.now()] is a reading of an oracle: the [n]-th call returns
      [clock n], a number of microseconds (the resolution of [datetime]).
      Nothing is assumed of the oracle, not even that it is monotone.
    - A [timedelta] is a number of microseconds; [total_seconds()] and the
      progress percentage are Python floats, modelled by the rational they
      approximate ([Q]).  [percent_binary64] is the percentage as binary64
      computes it, checked against the same bounds on a range of counters.
    - The reader decodes one byte at a time with [errors='ignore'], so a
      decoded character is a code point below 128 or nothing at all; [lower],
      [isspace] and [strip] are Python's, restricted to those code points.
    - [print] calls write to the console only and are left out.  So are the
      faults of the collaborators (a read or a commit that raises) and the
      second thread: the model is the reader running alone on a port that
      delivers bytes. *)

From Stdlib Require Import ZArith QArith Qminmax List String Ascii Bool Lia.
From Stdlib Require Import Floats Uint63.
Import ListNotations.
Local Open Scope string_scope.
Local Open Scope Z_scope.

(** ** Text *)

Module Text.

(** [byte.decode('utf-8', errors='ignore')] for a [bytes] object of length
    one: a byte below 128 is its own character, any other byte is an invalid
    or truncated sequence and is dropped. *)
Definition decode (byte : ascii) : string :=
  if (nat_of_ascii byte <? 128)%nat then String byte "" else "".

(** [str.lower()] on one character. *)
Definition lower_char (c : ascii) : ascii :=
  let n := nat_of_ascii c in
  if ((65 <=? n) && (n <=? 90))%nat then ascii_of_nat (n + 32) else c.

(** [str.lower()]. *)
Fixpoint lower (s : string) : string :=
  match s with
  | "" => ""
  | String c t => String (lower_char c) (lower t)
  end.

(** [str.isspace()] on one character: TAB, LF, VT, FF, CR, the four
    separators FS, GS, RS, US and the space. *)
Definition isspace (c : ascii) : bool :=
  let n := nat_of_ascii c in
  (((9 <=? n) && (n <=? 13)) || ((28 <=? n) && (n <=? 32)))%nat.

Fixpoint lstrip (s : string) : string :=
  match s with
  | "" => ""
  | String c t => if isspace c then lstrip t else s
  end.

Fixpoint rstrip (s : string) : string :=
  match s with
  | "" => ""
  | String c t =>
      match rstrip t with
      | "" => if isspace c then "" else String c ""
      | t' => String c t'
      end
  end.

(** [str.strip()] with no argument. *)
Definition strip (s : string) : string := rstrip (lstrip s).

(** The truth value of a [str]: true unless empty. *)
Definition truthy (s : string) : bool :=
  match s with "" => false | _ => true end.

(** [needle in hay] for two [str]. *)
Fixpoint contains (needle hay : string) : bool :=
  prefix needle hay ||
  match hay with
  | "" => false
  | String _ t => contains needle t
  end.

Definition LF : string := String (ascii_of_nat 10) "".
Definition CR : string := String (ascii_of_nat 13) "".

End Text.

Import Text.

(** ** Data *)

(** A row of [IntrusionEvent] as the code constructs it; [id] and
    [timestamp] are column defaults filled in by the database on insert. *)
Record IntrusionEvent := {
  event_type : string;
  message : string;
  duration : option Q
}.

(** A dict field that a payload may leave out. *)
Definition field (A : Type) := option A.
Definition absent {A} : field A := None.
Definition present {A} (a : A) : field A := Some a.

(** The calls [socketio.emit(name, payload)] of the reader, one constructor
    per event name, the payload's keys as arguments.  A timestamp is the
    clock reading that the payload renders ([strftime], [isoformat]). *)
Inductive Notification :=
| serial_status (status : string) (port : field string)
| serial_error (error : string)
| serial_data (message : string) (timestamp : Z)
| sensor_status (status : string)
| calibration_progress (progress : Q) (remaining : Z) (active : bool)
                       (dots : field Z)
| motion_status (status message : string) (duration : field (option Q))
| motion_alert (type : string) (timestamp : Z) (message : string)
| log_update (type message : string) (timestamp : Z) (duration : option Q).

(** The serial port object [ser]: [None], or a [serial.Serial] with its
    [is_open] flag. *)
Definition Serial := option bool.

Record World := {
  ser : Serial;
  serial_connected : bool;
  reading : bool;
  current_motion_start : option Z;
  calibration_start_time : option Z;
  calibration_dots_received : Z;
  clock : nat -> Z;                (* the readings [datetime.now()] returns *)
  ticks : nat;                     (* how many have been taken *)
  emitted : list Notification;     (* [socketio.emit] calls, oldest first *)
  db : list IntrusionEvent         (* committed rows, oldest first *)
}.

Definition total_calibration_time : Z := 30.

(** [ser and ser.is_open]. *)
Definition is_open (s : Serial) : bool :=
  match s with Some true => true | _ => false end.

(** [timedelta.total_seconds()]. *)
Definition total_seconds (microseconds : Z) : Q := microseconds # 1000000.

(** ** The state monad over [World] *)

Definition M (A : Type) : Type := World -> A * World.

Definition ret {A} (a : A) : M A := fun w => (a, w).

Definition bind {A B} (m : M A) (k : A -> M B) : M B :=
  fun w => let (a, w') := m w in k a w'.

Notation "x <- m ;; k" := (bind m (fun x => k))
  (at level 61, m at next level, right associativity).
Notation "m ;; k" := (bind m (fun _ => k))
  (at level 61, right associativity).

Definition get {A} (proj : World -> A) : M A := fun w => (proj w, w).

Definition modify (f : World -> World) : M unit := fun w => (tt, f w).

Definition exec {A} (m : M A) (w : World) : World := snd (m w).

Definition with_ser (v : Serial) (w : World) : World :=
  {| ser := v; serial_connected := serial_connected w; reading := reading w;
     current_motion_start := current_motion_start w;
     calibration_start_time := calibration_start_time w;
     calibration_dots_received := calibration_dots_received w;
     clock := clock w; ticks := ticks w; emitted := emitted w; db := db w |}.

Definition with_serial_connected (v : bool) (w : World) : World :=
  {| ser := ser w; serial_connected := v; reading := reading w;
     current_motion_start := current_motion_start w;
     calibration_start_time := calibration_start_time w;
     calibration_dots_received := calibration_dots_received w;
     clock := clock w; ticks := ticks w; emitted := emitted w; db := db w |}.

Definition with_reading (v : bool) (w : World) : World :=
  {| ser := ser w; serial_connected := serial_connected w; reading := v;
     current_motion_start := current_motion_start w;
     calibration_start_time := calibration_start_time w;
     calibration_dots_received := calibration_dots_received w;
     clock := clock w; ticks := ticks w; emitted := emitted w; db := db w |}.

Definition with_current_motion_start (v : option Z) (w : World) : World :=
  {| ser := ser w; serial_connected := serial_connected w; reading := reading w;
     current_motion_start := v;
     calibration_start_time := calibration_start_time w;
     calibration_dots_received := calibration_dots_received w;
     clock := clock w; ticks := ticks w; emitted := emitted w; db := db w |}.

Definition with_calibration_start_time (v : option Z) (w : World) : World :=
  {| ser := ser w; serial_connected := serial_connected w; reading := reading w;
     current_motion_start := current_motion_start w;
     calibration_start_time := v;
     calibration_dots_received := calibration_dots_received w;
     clock := clock w; ticks := ticks w; emitted := emitted w; db := db w |}.

Definition with_calibration_dots_received (v : Z) (w : World) : World :=
  {| ser := ser w; serial_connected := serial_connected w; reading := reading w;
     current_motion_start := current_motion_start w;
     calibration_start_time := calibration_start_time w;
     calibration_dots_received := v;
     clock := clock w; ticks := ticks w; emitted := emitted w; db := db w |}.

Definition with_ticks (v : nat) (w : World) : World :=
  {| ser := ser w; serial_connected := serial_connected w; reading := reading w;
     current_motion_start := current_motion_start w;
     calibration_start_time := calibration_start_time w;
     calibration_dots_received := calibration_dots_received w;
     clock := clock w; ticks := v; emitted := emitted w; db := db w |}.

Definition with_emitted (v : list Notification) (w : World) : World :=
  {| ser := ser w; serial_connected := serial_connected w; reading := reading w;
     current_motion_start := current_motion_start w;
     calibration_start_time := calibration_start_time w;
     calibration_dots_received := calibration_dots_received w;
     clock := clock w; ticks := ticks w; emitted := v; db := db w |}.

Definition with_db (v : list IntrusionEvent) (w : World) : World :=
  {| ser := ser w; serial_connected := serial_connected w; reading := reading w;
     current_motion_start := current_motion_start w;
     calibration_start_time := calibration_start_time w;
     calibration_dots_received := calibration_dots_received w;
     clock := clock w; ticks := ticks w; emitted := emitted w; db := v |}.

(** [datetime.now()]. *)
Definition now : M Z :=
  fun w => (clock w (ticks w), with_ticks (S (ticks w)) w).

(** [socketio.emit(...)]. *)
Definition emit (n : Notification) : M unit :=
  modify (fun w => with_emitted (emitted w ++ [n]) w).

(** [db.session.add(event); db.session.commit()]. *)
Definition db_add_commit (event : IntrusionEvent) : M unit :=
  modify (fun w => with_db (db w ++ [event]) w).

(** [ser.close()]. *)
Definition close : M unit := modify (with_ser (Some false)).

(** ** The classifier *)

(** What the [if]/[elif] chain of [process_serial_message] selects. *)
Inductive EventDescriptor :=
| CalibrationStart
| SensorActive
| MotionStart
| MotionEnd
| GenericSystemMessage (text : string).

(** The chain of tests of [process_serial_message] (lines 178-242), as the
    branch it takes. *)
Definition classify (message : string) : EventDescriptor :=
  let message_lower := lower message in
  if contains "calibrating sensor" message_lower then CalibrationStart
  else if contains "sensor active" message_lower then SensorActive
  else if contains "motion detected" message_lower then MotionStart
  else if contains "motion ended" message_lower then MotionEnd
  else GenericSystemMessage message.

(** ** The classifier as the specification words it *)

Module Rules.

Definition is_letter (c : ascii) : bool :=
  let n := nat_of_ascii c in
  (((65 <=? n) && (n <=? 90)) || ((97 <=? n) && (n <=? 122)))%nat.

(** Two characters that are equal, or the two cases of one letter. *)
Definition same_char_ignoring_case (c d : ascii) : bool :=
  (c =? d)%char ||
  (is_letter c && is_letter d &&
   (nat_of_ascii c mod 32 =? nat_of_ascii d mod 32)%nat).

Fixpoint prefix_ignoring_case (needle hay : string) : bool :=
  match needle, hay with
  | "", _ => true
  | String _ _, "" => false
  | String a needle', String b hay' =>
      same_char_ignoring_case a b && prefix_ignoring_case needle' hay'
  end.

(** Case-insensitive, unanchored substring matching. *)
Fixpoint contains_ignoring_case (needle hay : string) : bool :=
  prefix_ignoring_case needle hay ||
  match hay with
  | "" => false
  | String _ t => contains_ignoring_case needle t
  end.

(** The ordered rule list of the classifier. *)
Definition rules : list (string * EventDescriptor) :=
  [ ("calibrating sensor", CalibrationStart);
    ("sensor active", SensorActive);
    ("motion detected", MotionStart);
    ("motion ended", MotionEnd) ].

(** First match wins; with no match, the fallback keeps the line. *)
Definition first_match (line : string) : EventDescriptor :=
  match find (fun rule => contains_ignoring_case (fst rule) line) rules with
  | Some rule => snd rule
  | None => GenericSystemMessage line
  end.

End Rules.

Import Rules.

(** ** Observations on a world *)

(** The lines handed to [process_serial_message] so far, oldest first: each
    call publishes its argument in a [serial_data] notification before
    anything else, and nothing else publishes one. *)
Definition lines_emitted (w : World) : list string :=
  flat_map (fun n => match n with serial_data m _ => [m] | _ => [] end)
           (emitted w).

(** The session is live: the guard of the reader loop. *)
Definition live (w : World) : bool := reading w && is_open (ser w).

(** The bytes of a chunk as the reads that deliver them, one byte each. *)
Definition reads_of (chunk : list ascii) : list (option ascii) :=
  map Some chunk.

Definition with_clock (c : nat -> Z) (w : World) : World :=
  {| ser := ser w; serial_connected := serial_connected w; reading := reading w;
     current_motion_start := current_motion_start w;
     calibration_start_time := calibration_start_time w;
     calibration_dots_received := calibration_dots_received w;
     clock := c; ticks := ticks w; emitted := emitted w; db := db w |}.

(** The globals as the module initialises them (lines 39-45), nothing
    published or stored yet, under a given clock. *)
Definition initial_world (c : nat -> Z) : World :=
  {| ser := None; serial_connected := false; reading := false;
     current_motion_start := None; calibration_start_time := None;
     calibration_dots_received := 0;
     clock := c; ticks := 0; emitted := []; db := [] |}.

(** The lines that [drain reads buffer] hands to [process_serial_message],
    as a function of the reads alone. *)
Fixpoint lines_of (reads : list (option ascii)) (buffer : string)
  : list string :=
  match reads with
  | [] => []
  | None :: rest => lines_of rest buffer
  | Some b :: rest =>
      let char := decode b in
      let buffer := buffer ++ char in
      if ((char =? LF) || (char =? CR))%string then
        (if truthy (strip buffer) then [strip buffer] else [])
          ++ lines_of rest ""
      else lines_of rest buffer
  end.

(** A line that is neither a motion start nor a motion end. *)
Definition not_motion (line : string) : Prop :=
  classify line <> MotionStart /\ classify line <> MotionEnd.

(** The bytes of a text. *)
Definition bytes (s : string) : list (option ascii) :=
  reads_of (list_ascii_of_string s).

(** A clock for the examples: reading [n] is [n] seconds after the first. *)
Definition seconds_clock (n : nat) : Z := Z.of_nat n * 1000000.

(** A stand-in for the [.1f] rendering in the examples, none of which
    depends on the digits. *)
Definition plain_format_1f (d : Q) : string := "_".

(** Every value of [ascii], for checks by enumeration. *)
Definition all_ascii : list ascii := map ascii_of_nat (seq 0 256).

(** Text made of code points below 128 only: the text the reader can
    decode, and the domain on which [lower] and [isspace] above are
    Python's. *)
Definition ascii_only (s : string) : Prop :=
  forall c, In c (list_ascii_of_string s) -> (nat_of_ascii c < 128)%nat.

(** The percentage of [update_calibration_progress] as Python evaluates it,
    in binary64: [dots / 30] is the correctly rounded quotient, and
    [min(100, x)] is [x] when [x < 100] and the integer 100 otherwise. *)
Definition percent_binary64 (calibration_dots_received : Z) : float :=
  let x := (PrimFloat.of_uint63 (Uint63.of_Z calibration_dots_received)
            / 30 * 100)%float in
  if (x <? 100)%float then x else 100%float.

(** The counters from 1 to 10000. *)
Definition dot_counts : list Z := map Z.of_nat (seq 1 (Z.to_nat 10000)).

(** A read that adds a character to the buffer: a byte below 128. *)
Definition decodable (read : option ascii) : bool :=
  match read with
  | Some b => (nat_of_ascii b <? 128)%nat
  | None => false
  end.

(** The text that a run of reads adds to the buffer when none of them ends
    the line. *)
Fixpoint decoded (reads : list (option ascii)) : string :=
  match reads with
  | [] => ""
  | None :: rest => decoded rest
  | Some b :: rest => decode b ++ decoded rest
  end.

(** A read that ends the line. *)
Definition terminates (read : option ascii) : bool :=
  match read with
  | Some b => ((decode b =? LF) || (decode b =? CR))%string
  | None => false
  end.

(** A non-empty text whose last character is not a space for [isspace]. *)
Fixpoint ends_with_nonspace (s : string) : bool :=
  match s with
  | "" => false
  | String c "" => negb (isspace c)
  | String _ t => ends_with_nonspace t
  end.

(** A text whose first character is not a space for [isspace]. *)
Definition starts_with_nonspace (s : string) : bool :=
  match s with
  | "" => false
  | String c _ => negb (isspace c)
  end.

(** No character of the text is a line feed or a carriage return. *)
Definition no_terminator (s : string) : Prop :=
  forall c, In c (list_ascii_of_string s) ->
            c <> ascii_of_nat 10 /\ c <> ascii_of_nat 13.

(** The notifications that [n] dots in a row publish when the counter stood
    at [d] before the first: one per dot, the counter running from [d + 1]. *)
Fixpoint progress_run (d : Z) (n : nat) : list Notification :=
  match n with
  | O => []
  | S n' =>
      calibration_progress
        (Qmin 100 (inject_Z (d + 1) / inject_Z total_calibration_time * 100))
        (Z.max 0 (total_calibration_time - (d + 1))) true (present (d + 1))
      :: progress_run (d + 1) n'
  end.

(** The line is classified as a motion start (resp. a motion line). *)
Definition is_motion_start (line : string) : bool :=
  match classify line with MotionStart => true | _ => false end.

Definition is_motion (line : string) : bool :=
  match classify line with MotionStart | MotionEnd => true | _ => false end.

(** The [log_update] notifications of a list, in order. *)
Definition log_entries (l : list Notification) : list Notification :=
  filter (fun n => match n with log_update _ _ _ _ => true | _ => false end) l.

(** The [type] that the log entry of a line carries. *)
Definition log_type (d : EventDescriptor) : string :=
  match d with
  | MotionStart => "motion_start"
  | MotionEnd => "motion_end"
  | _ => "system"
  end.

(** A progress notification within the bounds of a progress bar: the
    percentage between 0 and 100, the seconds remaining between 0 and 30.
    Other notifications are not concerned. *)
Definition progress_in_range (n : Notification) : Prop :=
  match n with
  | calibration_progress p r _ _ =>
      (0 <= p /\ p <= 100)%Q /\ 0 <= r <= total_calibration_time
  | _ => True
  end.

(** What [socketio.emit] sends when a client connects: the events of the
    reader, and [connection_status], which only [handle_connect] sends. *)
Inductive SocketEvent :=
| connection_status (status : string)
| notification (n : Notification).

(** ** The program *)

Section Reader.

(** The format specification [.1f] applied to a float. *)
Variable format_1f : Q -> string.

Definition log_event (event_type message : string) (duration : option Q)
  : M unit :=
  timestamp <- now ;;
  emit (log_update event_type message timestamp duration).

Definition update_calibration_progress : M unit :=
  calibration_dots_received <- get calibration_dots_received ;;
  if 0 <? calibration_dots_received then
    let progress :=
      Qmin 100 (inject_Z calibration_dots_received
                / inject_Z total_calibration_time * 100)%Q in
    let remaining :=
      Z.max 0 (total_calibration_time - calibration_dots_received) in
    emit (calibration_progress progress remaining true
                               (present calibration_dots_received))
  else ret tt.

(** The bodies of the five branches of [process_serial_message]. *)

Definition calibration_started : M unit :=
  t <- now ;;
  modify (with_calibration_start_time (Some t)) ;;
  modify (with_calibration_dots_received 0) ;;
  emit (sensor_status "calibrating") ;;
  log_event "system" "Sensor calibration started..." None.

Definition sensor_active : M unit :=
  emit (sensor_status "active") ;;
  emit (calibration_progress 100 0 false absent) ;;
  log_event "system" "✅ Sensor active and armed - Ready for detection" None.

Definition motion_detected (message : string) (timestamp : Z) : M unit :=
  emit (motion_status "detected" message absent) ;;
  t <- now ;;
  modify (with_current_motion_start (Some t)) ;;
  db_add_commit {| event_type := "motion_start"; message := message;
                   duration := None |} ;;
  log_event "motion_start" "🚨 MOTION DETECTED!" None ;;
  emit (motion_alert "detected" timestamp "Motion detected!").

(** [f' (Duration: {duration:.1f}s)' if duration else ''] (line 238): the
    text is empty for [None] and for a float that is zero. *)
Definition duration_text (duration : option Q) : string :=
  match duration with
  | Some d => if Qeq_bool d 0 then ""
              else " (Duration: " ++ format_1f d ++ "s)"
  | None => ""
  end.

Definition motion_ended (message : string) : M unit :=
  started <- get current_motion_start ;;
  duration <- match started with
              | Some t0 => t1 <- now ;; ret (Some (total_seconds (t1 - t0)))
              | None => ret None
              end ;;
  emit (motion_status "ended" message (present duration)) ;;
  db_add_commit {| event_type := "motion_end"; message := message;
                   duration := duration |} ;;
  log_event "motion_end" ("Motion ended" ++ duration_text duration) None ;;
  modify (with_current_motion_start None).

Definition other_message (message : string) : M unit :=
  log_event "system" ("Arduino: " ++ message) None.

Definition process_serial_message (message : string) : M unit :=
  timestamp <- now ;;
  emit (serial_data message timestamp) ;;
  match classify message with
  | CalibrationStart => calibration_started
  | SensorActive => sensor_active
  | MotionStart => motion_detected message timestamp
  | MotionEnd => motion_ended message
  | GenericSystemMessage text => other_message text
  end.

(** One turn of the inner loop of [read_serial_data]: [byte] is what
    [ser.read(1)] returned ([None] for the empty [bytes] of a timeout), the
    result is the new [buffer]. *)
Definition read_step (byte : option ascii) (buffer : string) : M string :=
  match byte with
  | None => ret buffer
  | Some b =>
      let char := decode b in
      let buffer := buffer ++ char in
      if ((char =? LF) || (char =? CR))%string then
        let line := strip buffer in
        (if truthy line then process_serial_message line else ret tt) ;;
        ret ""
      else if (char =? ".")%string && contains "calibrating sensor" buffer then
        n <- get calibration_dots_received ;;
        modify (with_calibration_dots_received (n + 1)) ;;
        update_calibration_progress ;;
        ret buffer
      else ret buffer
  end.

(** The inner loop [while ser.in_waiting > 0]: the reads of one wake-up. *)
Fixpoint drain (reads : list (option ascii)) (buffer : string) : M string :=
  match reads with
  | [] => ret buffer
  | byte :: rest => buffer' <- read_step byte buffer ;; drain rest buffer'
  end.

(** The outer loop of [read_serial_data], one element of [wakeups] per turn
    in which bytes were waiting; it stops when the guard
    [reading and ser and ser.is_open] fails. *)
Fixpoint read_loop (wakeups : list (list (option ascii))) (buffer : string)
  : M string :=
  match wakeups with
  | [] => ret buffer
  | reads :: rest =>
      live <- get (fun w => reading w && is_open (ser w)) ;;
      if live then buffer' <- drain reads buffer ;; read_loop rest buffer'
      else ret buffer
  end.

Definition read_serial_data (wakeups : list (list (option ascii)))
  : M string :=
  read_loop wakeups "".

(** [connect_serial]; [failure] is the exception that opening the port
    raises, if any.  The reader thread that a successful call starts is
    [read_serial_data], run on the world that results. *)
Definition connect_serial (port : string) (baudrate : Z)
           (failure : option string) : M bool :=
  s <- get ser ;;
  (if is_open s then close else ret tt) ;;
  match failure with
  | None =>
      modify (with_ser (Some true)) ;;
      modify (with_serial_connected true) ;;
      modify (with_reading true) ;;
      modify (with_calibration_start_time None) ;;
      modify (with_calibration_dots_received 0) ;;
      emit (serial_status "connected" (present port)) ;;
      log_event "system" ("Connected to Arduino on " ++ port) None ;;
      ret true
  | Some error_msg =>
      emit (serial_error error_msg) ;;
      log_event "system" ("Connection failed: " ++ error_msg) None ;;
      ret false
  end.

Definition disconnect_serial : M unit :=
  modify (with_reading false) ;;
  modify (with_serial_connected false) ;;
  modify (with_calibration_start_time None) ;;
  modify (with_calibration_dots_received 0) ;;
  s <- get ser ;;
  (if is_open s then close else ret tt) ;;
  emit (serial_status "disconnected" absent) ;;
  emit (calibration_progress 0 total_calibration_time false absent) ;;
  log_event "system" "Disconnected from Arduino" None.

(** The handler of the WebSocket event [connect] (lines 324-333): the two
    events it emits, in order.  It changes no global. *)
Definition handle_connect (w : World) : list SocketEvent :=
  [ connection_status "connected";
    if serial_connected w
    then notification (serial_status "connected" absent)
    else notification (serial_status "disconnected" absent) ].

(** [IntrusionEvent.query.filter_by(event_type='motion_start').count()],
    the [total_events] of [get_stats] (line 275). *)
Definition total_events (w : World) : nat :=
  List.length
    (filter (fun e => (event_type e =? "motion_start")%string) (db w)).

(** [clear_events] (lines 313-321) when the database does not fail: every
    row is deleted and the answer is [{'success': True}]. *)
Definition clear_events : M bool :=
  modify (with_db []) ;;
  ret true.

(** ** Characters: exhaustive checks *)

Lemma all_ascii_complete (c : ascii) : In c all_ascii.
Proof.
  unfold all_ascii. rewrite <- (ascii_nat_embedding c).
  apply in_map, in_seq. pose proof (nat_ascii_bounded c). lia.
Qed.

Lemma forall_ascii (P : ascii -> bool) :
  forallb P all_ascii = true -> forall c, P c = true.
Proof.
  intros H c. rewrite forallb_forall in H. apply H, all_ascii_complete.
Qed.

Lemma forall_ascii2 (P : ascii -> ascii -> bool) :
  forallb (fun c => forallb (P c) all_ascii) all_ascii = true ->
  forall c d, P c d = true.
Proof.
  intros H c d.
  apply (forall_ascii (P c)). apply (forall_ascii _ H).
Qed.

(** On a character that [lower] leaves alone, equality with the lowered
    character is equality up to case. *)
Lemma lower_char_same (c d : ascii) :
  lower_char c = c ->
  (c =? lower_char d)%char = same_char_ignoring_case c d.
Proof.
  intros Hc.
  assert (H : implb (lower_char c =? c)%char
                (Bool.eqb (c =? lower_char d)%char
                          (same_char_ignoring_case c d)) = true).
  { revert c d Hc. intros c d _. revert c d.
    apply forall_ascii2. vm_compute. reflexivity. }
  rewrite Hc, Ascii.eqb_refl in H. simpl in H.
  apply Bool.eqb_prop in H. exact H.
Qed.

(** ** Matching on the lowered text is matching up to case *)

Lemma prefix_lower (needle hay : string) :
  lower needle = needle ->
  prefix needle (lower hay) = prefix_ignoring_case needle hay.
Proof.
  revert hay. induction needle as [|a needle IH]; intros hay Hn.
  - destruct hay; reflexivity.
  - simpl in Hn. injection Hn as Ha Hn'.
    destruct hay as [|b hay]; simpl; [reflexivity|].
    rewrite <- (lower_char_same a b Ha), <- (IH hay Hn').
    destruct (ascii_dec a (lower_char b)) as [E|E].
    + rewrite E, Ascii.eqb_refl. reflexivity.
    + apply Ascii.eqb_neq in E. rewrite E. reflexivity.
Qed.

Lemma contains_lower (needle hay : string) :
  lower needle = needle ->
  contains needle (lower hay) = contains_ignoring_case needle hay.
Proof.
  intros Hn. induction hay as [|b hay IH].
  - simpl. rewrite <- (prefix_lower needle "" Hn). reflexivity.
  - change (lower (String b hay)) with (String (lower_char b) (lower hay)).
    change (contains needle (String (lower_char b) (lower hay)))
      with (prefix needle (lower (String b hay)) || contains needle (lower hay)).
    rewrite IH, (prefix_lower _ _ Hn). reflexivity.
Qed.

(** The chain of tests of the code is the first match in the rule list. *)
Lemma classify_is_first_match (line : string) :
  classify line = first_match line.
Proof.
  unfold classify, first_match, rules. cbv zeta.
  rewrite !contains_lower by reflexivity.
  cbn [find fst snd].
  repeat match goal with
         | |- context [contains_ignoring_case ?n line] =>
             destruct (contains_ignoring_case n line); try reflexivity
         end.
Qed.

(** ** Running the program symbolically *)

Ltac run :=
  unfold exec, process_serial_message, calibration_started, sensor_active,
    motion_detected, motion_ended, other_message, update_calibration_progress,
    disconnect_serial, connect_serial,
    log_event, db_add_commit, emit, now, close, modify, get, bind, ret;
  cbn -[Qmin Qdiv Qmult inject_Z Z.add Z.sub Z.max Z.ltb total_seconds
        String.append contains strip duration_text classify].

Ltac run_more :=
  cbn -[Qmin Qdiv Qmult inject_Z Z.add Z.sub Z.max Z.ltb total_seconds
        String.append contains strip duration_text classify].

Ltac run_cases m w :=
  run; destruct (classify m) eqn:?; run_more;
  try match goal with
      | |- context [match current_motion_start w with _ => _ end] =>
          destruct (current_motion_start w) eqn:?; run_more
      end.

(** ** What each procedure leaves alone *)

Lemma process_lines (m : string) (w : World) :
  lines_emitted (exec (process_serial_message m) w)
  = (lines_emitted w ++ [m])%list.
Proof.
  unfold lines_emitted. run_cases m w; rewrite !flat_map_app; cbn;
    rewrite ?app_nil_r; reflexivity.
Qed.

Lemma process_frame (m : string) (w : World) :
  let w' := exec (process_serial_message m) w in
  ser w' = ser w /\ reading w' = reading w /\
  serial_connected w' = serial_connected w /\ clock w' = clock w.
Proof. run_cases m w; repeat split. Qed.

Lemma progress_frame (w : World) :
  let w' := exec update_calibration_progress w in
  ser w' = ser w /\ reading w' = reading w /\
  serial_connected w' = serial_connected w /\ clock w' = clock w /\
  lines_emitted w' = lines_emitted w /\
  current_motion_start w' = current_motion_start w /\
  calibration_start_time w' = calibration_start_time w /\
  calibration_dots_received w' = calibration_dots_received w /\
  db w' = db w /\ ticks w' = ticks w.
Proof.
  run. destruct (0 <? calibration_dots_received w); cbn; repeat split.
  unfold lines_emitted. cbn. rewrite flat_map_app. cbn. apply app_nil_r.
Qed.

(** ** The reader loop *)

Ltac step_more :=
  cbn -[Qmin Qdiv Qmult inject_Z Z.add Z.sub Z.max Z.ltb total_seconds
        String.append contains strip duration_text classify String.eqb
        process_serial_message update_calibration_progress].

Ltac run_step :=
  unfold exec, read_step, bind, ret, get, modify; step_more.

Lemma read_step_frame (byte : option ascii) (buffer : string) (w : World) :
  let w' := exec (read_step byte buffer) w in
  ser w' = ser w /\ reading w' = reading w /\ clock w' = clock w.
Proof.
  destruct byte as [b|]; [|repeat split].
  run_step.
  destruct ((decode b =? LF) || (decode b =? CR))%string.
  - destruct (truthy (strip (buffer ++ decode b))); step_more; [|repeat split].
    pose proof (process_frame (strip (buffer ++ decode b)) w) as H.
    unfold exec in H. cbv zeta in H.
    destruct (process_serial_message (strip (buffer ++ decode b)) w).
    cbn in *. tauto.
  - destruct ((decode b =? ".")%string
              && contains "calibrating sensor" (buffer ++ decode b));
      step_more; [|repeat split].
    pose proof (progress_frame
                  (with_calibration_dots_received
                     (calibration_dots_received w + 1) w)) as H.
    unfold exec in H. cbv zeta in H.
    destruct (update_calibration_progress _). cbn in *. tauto.
Qed.

Lemma read_step_lines (byte : option ascii) (buffer : string) (w : World) :
  lines_emitted (exec (read_step byte buffer) w)
  = (lines_emitted w ++ lines_of [byte] buffer)%list.
Proof.
  destruct byte as [b|]; [|cbn; symmetry; apply app_nil_r].
  cbn [lines_of]. run_step.
  destruct ((decode b =? LF) || (decode b =? CR))%string.
  - destruct (truthy (strip (buffer ++ decode b))); step_more.
    + pose proof (process_lines (strip (buffer ++ decode b)) w) as H.
      unfold exec in H.
      destruct (process_serial_message (strip (buffer ++ decode b)) w).
      cbn in *. exact H.
    + symmetry; apply app_nil_r.
  - destruct ((decode b =? ".")%string
              && contains "calibrating sensor" (buffer ++ decode b));
      step_more; [|symmetry; apply app_nil_r].
    pose proof (progress_frame
                  (with_calibration_dots_received
                     (calibration_dots_received w + 1) w)) as H.
    unfold exec in H. cbv zeta in H.
    destruct (update_calibration_progress _). cbn in *.
    rewrite app_nil_r. apply H.
Qed.

(** The buffer that a step leaves does not depend on the world. *)
Lemma read_step_buffer (byte : option ascii) (buffer : string) (w w' : World) :
  fst (read_step byte buffer w) = fst (read_step byte buffer w').
Proof.
  destruct byte as [b|]; [|reflexivity].
  run_step.
  destruct ((decode b =? LF) || (decode b =? CR))%string.
  - destruct (truthy (strip (buffer ++ decode b))); step_more; [|reflexivity].
    destruct (process_serial_message _ w), (process_serial_message _ w').
    reflexivity.
  - destruct ((decode b =? ".")%string
              && contains "calibrating sensor" (buffer ++ decode b));
      step_more; [|reflexivity].
    destruct (update_calibration_progress _),
             (update_calibration_progress _).
    reflexivity.
Qed.

Lemma lines_of_cons (byte : option ascii) (rest : list (option ascii))
      (buffer : string) (w : World) :
  lines_of (byte :: rest) buffer
  = (lines_of [byte] buffer
     ++ lines_of rest (fst (read_step byte buffer w)))%list.
Proof.
  destruct byte as [b|]; [|reflexivity].
  cbn [lines_of]. run_step.
  destruct ((decode b =? LF) || (decode b =? CR))%string.
  - rewrite app_nil_r.
    destruct (truthy (strip (buffer ++ decode b))); step_more;
      [destruct (process_serial_message _ w)|]; reflexivity.
  - destruct ((decode b =? ".")%string
              && contains "calibrating sensor" (buffer ++ decode b));
      step_more; [destruct (update_calibration_progress _)|]; reflexivity.
Qed.

Lemma drain_cons (byte : option ascii) (rest : list (option ascii))
      (buffer : string) (w : World) :
  drain (byte :: rest) buffer w
  = drain rest (fst (read_step byte buffer w))
          (exec (read_step byte buffer) w).
Proof.
  cbn [drain]. unfold bind, exec.
  destruct (read_step byte buffer w). reflexivity.
Qed.

Lemma drain_frame (reads : list (option ascii)) (buffer : string) (w : World) :
  let w' := exec (drain reads buffer) w in
  ser w' = ser w /\ reading w' = reading w /\ clock w' = clock w /\
  lines_emitted w' = (lines_emitted w ++ lines_of reads buffer)%list.
Proof.
  revert buffer w. induction reads as [|byte rest IH]; intros buffer w.
  - cbn. rewrite app_nil_r. repeat split.
  - cbv zeta. unfold exec. rewrite drain_cons.
    specialize (IH (fst (read_step byte buffer w))
                   (exec (read_step byte buffer) w)).
    cbv zeta in IH. unfold exec in IH |- *.
    destruct IH as (Hs & Hr & Hc & Hl).
    pose proof (read_step_frame byte buffer w) as (Hs' & Hr' & Hc').
    pose proof (read_step_lines byte buffer w) as Hl'.
    unfold exec in *.
    rewrite Hs, Hr, Hc, Hl, Hs', Hr', Hc', Hl'.
    rewrite (lines_of_cons byte rest buffer w), app_assoc.
    repeat split.
Qed.

Lemma drain_buffer (reads : list (option ascii)) (buffer : string)
      (w w' : World) :
  fst (drain reads buffer w) = fst (drain reads buffer w').
Proof.
  revert buffer w w'. induction reads as [|byte rest IH]; intros buffer w w'.
  - reflexivity.
  - rewrite !drain_cons, (read_step_buffer byte buffer w w'). apply IH.
Qed.

Lemma drain_app (r1 r2 : list (option ascii)) (buffer : string) (w : World) :
  drain (r1 ++ r2) buffer w
  = drain r2 (fst (drain r1 buffer w)) (exec (drain r1 buffer) w).
Proof.
  revert buffer w. induction r1 as [|byte r1 IH]; intros buffer w.
  - reflexivity.
  - rewrite <- app_comm_cons, !drain_cons. unfold exec at 2 3.
    rewrite drain_cons. apply IH.
Qed.

Lemma drain_live (reads : list (option ascii)) (buffer : string) (w : World) :
  live (exec (drain reads buffer) w) = live w.
Proof.
  unfold live. destruct (drain_frame reads buffer w) as (-> & -> & _).
  reflexivity.
Qed.

(** While the session is live the loop is one drain of all the reads; a
    session that is not live reads nothing. *)
Lemma read_loop_live (wakeups : list (list (option ascii))) (buffer : string)
      (w : World) :
  live w = true ->
  read_loop wakeups buffer w = drain (List.concat wakeups) buffer w.
Proof.
  revert buffer w. induction wakeups as [|reads rest IH]; intros buffer w Hw.
  - reflexivity.
  - cbn [read_loop List.concat]. unfold bind at 1, get.
    fold (live w). rewrite Hw, drain_app.
    unfold bind, exec. pose proof (drain_live reads buffer w) as Hl.
    unfold exec in Hl. destruct (drain reads buffer w) as [b' w'].
    cbn in *. apply IH. congruence.
Qed.

Lemma read_loop_dead (wakeups : list (list (option ascii))) (buffer : string)
      (w : World) :
  live w = false -> read_loop wakeups buffer w = (buffer, w).
Proof.
  intros Hw. destruct wakeups as [|reads rest]; [reflexivity|].
  cbn [read_loop]. unfold bind, get. fold (live w). rewrite Hw. reflexivity.
Qed.

Lemma reads_of_concat (chunks : list (list ascii)) :
  List.concat (map reads_of chunks) = reads_of (List.concat chunks).
Proof. unfold reads_of. symmetry. apply concat_map. Qed.

(** ** The framer *)

(** C5. Chunk-boundary independence: however the input bytes are split into
    the chunks that successive wake-ups of the reader drain, the reader ends
    with the buffer and the world that it reaches when the same bytes arrive
    as one chunk; and the lines it emits are the same even when the two runs
    read different clocks. *)
Theorem chunk_boundary_independence
        (chunks : list (list ascii)) (w : World) (c' : nat -> Z) :
  read_serial_data (map reads_of chunks) w
  = read_serial_data [reads_of (List.concat chunks)] w
  /\ lines_emitted (exec (read_serial_data (map reads_of chunks)) w)
     = lines_emitted
         (exec (read_serial_data [reads_of (List.concat chunks)])
               (with_clock c' w)).
Proof.
  unfold read_serial_data, exec.
  destruct (live w) eqn:Hw.
  - assert (Hw' : live (with_clock c' w) = true) by exact Hw.
    rewrite !read_loop_live by assumption.
    rewrite reads_of_concat. cbn [List.concat]. rewrite app_nil_r.
    split; [reflexivity|].
    pose proof (drain_frame (reads_of (List.concat chunks)) "" w)
      as (_ & _ & _ & H1).
    pose proof (drain_frame (reads_of (List.concat chunks)) ""
                            (with_clock c' w)) as (_ & _ & _ & H2).
    unfold exec in H1, H2. rewrite H1, H2. reflexivity.
  - assert (Hw' : live (with_clock c' w) = false) by exact Hw.
    rewrite !read_loop_dead by assumption. split; reflexivity.
Qed.

(** C6. A terminator that leaves the trimmed buffer empty changes nothing
    in the world (no line is processed, nothing is published or stored) and
    returns the empty buffer, so the reads that follow are handled as from a
    fresh buffer. *)
Theorem empty_line_resets_buffer
        (b : ascii) (buffer : string) (w : World)
        (rest : list (option ascii)) :
  decode b = LF \/ decode b = CR ->
  strip (buffer ++ decode b) = "" ->
  read_step (Some b) buffer w = ("", w)
  /\ drain (Some b :: rest) buffer w = drain rest "" w.
Proof.
  intros Hterm Hempty.
  assert (Hstep : read_step (Some b) buffer w = ("", w)).
  { run_step. rewrite Hempty.
    destruct Hterm as [-> | ->]; reflexivity. }
  split; [exact Hstep|].
  rewrite drain_cons. unfold exec. rewrite Hstep. reflexivity.
Qed.

Lemma process_first_notification (m : string) (w : World) :
  exists rest,
    emitted (exec (process_serial_message m) w)
    = (emitted w ++ serial_data m (clock w (ticks w)) :: rest)%list.
Proof.
  run_cases m w; rewrite <- !app_assoc; cbn [app]; eexists; reflexivity.
Qed.

(** C8 (as amended). On a terminator with a non-empty trimmed buffer the
    first notification published is [serial_data], its message is the
    trimmed line (the buffer, terminator included, after [strip]) and its
    timestamp is the clock reading taken on entry. *)
Theorem raw_data_carries_trimmed_line
        (b : ascii) (buffer : string) (w : World) :
  decode b = LF \/ decode b = CR ->
  strip (buffer ++ decode b) <> "" ->
  exists rest,
    emitted (exec (read_step (Some b) buffer) w)
    = (emitted w
       ++ serial_data (strip (buffer ++ decode b)) (clock w (ticks w))
       :: rest)%list.
Proof.
  intros Hterm Hline.
  destruct (process_first_notification (strip (buffer ++ decode b)) w)
    as [rest Hrest].
  exists rest. rewrite <- Hrest. clear Hrest.
  run_step.
  replace ((decode b =? LF) || (decode b =? CR))%string with true
    by (destruct Hterm as [-> | ->]; reflexivity).
  destruct (strip (buffer ++ decode b)) as [|c line] eqn:E;
    [contradiction|].
  cbn [truthy].
  destruct (process_serial_message (String c line) w). reflexivity.
Qed.

(** ** The event sink *)

Lemma app_one_neq {A} (l : list A) (x : A) : (l ++ [x])%list <> l.
Proof.
  intros H. apply (f_equal (@List.length A)) in H.
  rewrite length_app in H. cbn in H. lia.
Qed.

(** C10. Processing a line appends to the database exactly when the line
    classifies as a motion start or a motion end, and then appends exactly
    one row; the three other classifications leave the rows unchanged. *)
Theorem db_append_iff_motion (line : string) (w : World) :
  let w' := exec (process_serial_message line) w in
  (classify line = MotionStart \/ classify line = MotionEnd <-> db w' <> db w)
  /\ (classify line = MotionStart ->
      db w' = (db w ++ [{| event_type := "motion_start"; message := line;
                           duration := None |}])%list)
  /\ (classify line = MotionEnd ->
      exists d,
        db w' = (db w ++ [{| event_type := "motion_end"; message := line;
                             duration := d |}])%list)
  /\ (classify line = CalibrationStart \/ classify line = SensorActive
      \/ classify line = GenericSystemMessage line ->
      db w' = db w).
Proof.
  assert (Hg : forall t, classify line = GenericSystemMessage t -> t = line).
  { unfold classify. cbv zeta. intros t.
    repeat match goal with
           | |- context [if ?c then _ else _] => destruct c
           end; congruence. }
  run_cases line w;
    (split; [split; [intros [?|?]; try discriminate; apply app_one_neq
                    | intros H; try (exfalso; apply H; reflexivity);
                      auto]
            | repeat split; try discriminate; try reflexivity;
              try (intros [?|[?|?]]; discriminate);
              try (intros _; eexists; reflexivity) ]).
Qed.

(** ** Disconnecting *)

(** C9. [disconnect_serial] is total; from any world it publishes, in this
    order, the disconnected status, the zeroed calibration progress
    (progress 0, remaining 30, inactive) and a system log entry stamped with
    the clock reading of the call.  A second call in a row publishes the same
    three notifications again (its log entry carries the next clock reading)
    and leaves every global as the first call left it. *)
Theorem disconnect_idempotent (w : World) :
  let w1 := exec disconnect_serial w in
  let w2 := exec disconnect_serial w1 in
  emitted w1
  = (emitted w
     ++ [ serial_status "disconnected" absent;
          calibration_progress 0 30 false absent;
          log_update "system" "Disconnected from Arduino"
                     (clock w (ticks w)) None ])%list
  /\ emitted w2
     = (emitted w1
        ++ [ serial_status "disconnected" absent;
             calibration_progress 0 30 false absent;
             log_update "system" "Disconnected from Arduino"
                        (clock w (S (ticks w))) None ])%list
  /\ (reading w1 = false /\ serial_connected w1 = false
      /\ calibration_start_time w1 = None
      /\ calibration_dots_received w1 = 0
      /\ is_open (ser w1) = false /\ db w1 = db w
      /\ current_motion_start w1 = current_motion_start w)
  /\ w2 = with_emitted (emitted w2) (with_ticks (ticks w2) w1).
Proof.
  run. destruct (ser w) as [[|]|] eqn:E; run_more; rewrite ?E; run_more;
    rewrite <- !app_assoc; cbn [app]; rewrite ?E; repeat split.
Qed.

(** ** Calibration progress *)

Lemma percent_monotone (d1 d2 : Z) :
  d1 <= d2 ->
  (Qmin 100 (inject_Z d1 / inject_Z total_calibration_time * 100)
   <= Qmin 100 (inject_Z d2 / inject_Z total_calibration_time * 100))%Q.
Proof.
  intros H. apply Q.min_le_compat_l.
  apply Qmult_le_compat_r; [|discriminate].
  apply Qmult_le_compat_r; [|discriminate].
  rewrite <- Zle_Qle. exact H.
Qed.

Lemma percent_clamped (d : Z) :
  total_calibration_time < d ->
  (Qmin 100 (inject_Z d / inject_Z total_calibration_time * 100) == 100)%Q.
Proof.
  intros H. apply Q.min_l.
  unfold Qle, Qdiv, Qmult, Qinv, inject_Z, total_calibration_time in *.
  cbn. lia.
Qed.

(** C4. A ['.'] that arrives while the buffer holds the marker increments
    the counter and publishes exactly one notification, with
    [progress = min(100, dots / 30 * 100)],
    [remaining = max(0, 30 - dots)], [active] true and [dots] the counter
    after the increment.  Past 30 dots the values are clamped to progress 100
    and remaining 0, and a larger counter never publishes a smaller
    progress. *)
Theorem dot_publishes_progress
        (buffer1 buffer2 : string) (w1 w2 : World) :
  0 <= calibration_dots_received w1 ->
  calibration_dots_received w1 <= calibration_dots_received w2 ->
  contains "calibrating sensor" (buffer1 ++ ".") = true ->
  contains "calibrating sensor" (buffer2 ++ ".") = true ->
  let percent (d : Z) :=
    Qmin 100 (inject_Z d / inject_Z total_calibration_time * 100)%Q in
  let remaining (d : Z) := Z.max 0 (total_calibration_time - d) in
  let published (buffer : string) (w : World) :=
    let d := calibration_dots_received w + 1 in
    (buffer ++ ".",
     with_emitted
       (emitted w
        ++ [calibration_progress (percent d) (remaining d) true (present d)])
       (with_calibration_dots_received d w)) in
  read_step (Some "."%char) buffer1 w1 = published buffer1 w1
  /\ read_step (Some "."%char) buffer2 w2 = published buffer2 w2
  /\ (total_calibration_time < calibration_dots_received w1 + 1 ->
      (percent (calibration_dots_received w1 + 1)%Z == 100)%Q
      /\ remaining (calibration_dots_received w1 + 1) = 0)
  /\ (percent 45%Z == 100)%Q /\ remaining 45 = 0
  /\ (percent (calibration_dots_received w1 + 1)%Z
      <= percent (calibration_dots_received w2 + 1)%Z)%Q.
Proof.
  intros H0 Hle Hb1 Hb2 percent remaining published.
  assert (Hstep : forall buffer w,
             0 <= calibration_dots_received w ->
             contains "calibrating sensor" (buffer ++ ".") = true ->
             read_step (Some "."%char) buffer w = published buffer w).
  { intros buffer w Hd Hb. unfold published, percent, remaining.
    unfold read_step. change (decode ".") with ".".
    change ("." =? LF)%string with false.
    change ("." =? CR)%string with false.
    change ("." =? ".")%string with true.
    rewrite Hb. cbn [orb andb].
    unfold update_calibration_progress, bind, get, emit, modify, ret.
    step_more.
    replace (0 <? calibration_dots_received w + 1) with true
      by (symmetry; apply Z.ltb_lt; lia).
    reflexivity. }
  split; [apply Hstep; assumption|].
  split; [apply Hstep; [lia|assumption]|].
  split.
  { intros Hover. split; [apply percent_clamped; exact Hover|].
    unfold remaining. lia. }
  split; [apply percent_clamped; reflexivity|].
  split; [reflexivity|].
  apply percent_monotone. lia.
Qed.

(** ** The calibration counter *)

Lemma process_calibration_fields (m : string) (w : World) :
  let w' := exec (process_serial_message m) w in
  (classify m = CalibrationStart ->
   calibration_dots_received w' = 0
   /\ calibration_start_time w' = Some (clock w (S (ticks w))))
  /\ (classify m <> CalibrationStart ->
      calibration_dots_received w' = calibration_dots_received w
      /\ calibration_start_time w' = calibration_start_time w).
Proof.
  run_cases m w; split; intros H; try discriminate; try contradiction;
    split; reflexivity.
Qed.

Lemma classify_empty : classify "" = GenericSystemMessage "".
Proof. reflexivity. Qed.

(** The counter is never negative once it is not. *)
Lemma read_step_dots_nonneg (byte : option ascii) (buffer : string)
      (w : World) :
  0 <= calibration_dots_received w ->
  0 <= calibration_dots_received (exec (read_step byte buffer) w).
Proof.
  intros H. destruct byte as [b|]; [|exact H].
  run_step.
  destruct ((decode b =? LF) || (decode b =? CR))%string.
  - destruct (truthy (strip (buffer ++ decode b))); step_more; [|exact H].
    pose proof (process_calibration_fields (strip (buffer ++ decode b)) w)
      as [Hc Hn].
    unfold exec in Hc, Hn.
    destruct (process_serial_message (strip (buffer ++ decode b)) w).
    cbn in *.
    destruct (classify (strip (buffer ++ decode b))) eqn:E;
      try (destruct Hn as [-> _]; [discriminate|exact H]).
    destruct Hc as [-> _]; [reflexivity|lia].
  - destruct ((decode b =? ".")%string
              && contains "calibrating sensor" (buffer ++ decode b));
      step_more; [|exact H].
    pose proof (progress_frame
                  (with_calibration_dots_received
                     (calibration_dots_received w + 1) w)) as Hp.
    unfold exec in Hp. cbv zeta in Hp.
    destruct (update_calibration_progress _).
    cbn in *. destruct Hp as (_ & _ & _ & _ & _ & _ & _ & -> & _). lia.
Qed.

(** C3 (as amended). One step of the reader changes the counter in exactly
    two ways.  It sets it to 0, and records the start time, when the byte is
    a terminator and the trimmed buffer classifies as a calibration start.
    It adds 1 when the byte is a ['.'] and the buffer, this dot included,
    contains the lowercase marker; the start time plays no part in that test
    and is left as it was, present or absent.  Every other step leaves both
    the counter and the start time alone. *)
Theorem dots_reset_and_increment
        (byte : option ascii) (buffer : string) (w : World) :
  let w' := exec (read_step byte buffer) w in
  let char := match byte with Some b => decode b | None => "" end in
  let resets :=
    (char = LF \/ char = CR)
    /\ classify (strip (buffer ++ char)) = CalibrationStart in
  let counts :=
    char = "." /\ contains "calibrating sensor" (buffer ++ char) = true in
  (resets ->
   calibration_dots_received w' = 0
   /\ calibration_start_time w' = Some (clock w (S (ticks w))))
  /\ (counts ->
      calibration_dots_received w' = calibration_dots_received w + 1
      /\ calibration_start_time w' = calibration_start_time w)
  /\ (~ resets -> ~ counts ->
      calibration_dots_received w' = calibration_dots_received w
      /\ calibration_start_time w' = calibration_start_time w).
Proof.
  destruct byte as [b|]; cbv zeta.
  2:{ repeat split; try reflexivity; exfalso;
        repeat match goal with
               | H : _ /\ _ |- _ => destruct H
               | H : _ \/ _ |- _ => destruct H
               end; discriminate. }
  run_step.
  destruct ((decode b =? LF) || (decode b =? CR))%string eqn:Eterm.
  - assert (Hterm : decode b = LF \/ decode b = CR).
    { apply orb_true_iff in Eterm.
      destruct Eterm as [E|E]; apply String.eqb_eq in E; auto. }
    assert (Hnodot : decode b <> ".").
    { destruct Hterm as [-> | ->]; discriminate. }
    destruct (truthy (strip (buffer ++ decode b))) eqn:Etruthy; step_more.
    + pose proof (process_calibration_fields (strip (buffer ++ decode b)) w)
        as [Hc Hn].
      unfold exec in Hc, Hn.
      destruct (process_serial_message (strip (buffer ++ decode b)) w).
      cbn in *. repeat split; try tauto; apply Hn; tauto.
    + destruct (strip (buffer ++ decode b)) eqn:Es; [|discriminate].
      rewrite classify_empty.
      repeat split; try reflexivity; try tauto;
        destruct H as [_ H]; discriminate.
  - assert (Hnoterm : ~ (decode b = LF \/ decode b = CR)).
    { intros [E|E]; rewrite E in Eterm; discriminate. }
    destruct ((decode b =? ".")%string
              && contains "calibrating sensor" (buffer ++ decode b))
             eqn:Edot; step_more.
    + pose proof (progress_frame
                    (with_calibration_dots_received
                       (calibration_dots_received w + 1) w)) as Hp.
      unfold exec in Hp. cbv zeta in Hp.
      destruct (update_calibration_progress _).
      cbn in *. destruct Hp as (_ & _ & _ & _ & _ & _ & Hs & Hd & _).
      apply andb_true_iff in Edot. destruct Edot as [Ed Eb].
      apply String.eqb_eq in Ed.
      repeat split; try tauto; exfalso; tauto.
    + assert (Hnodot : ~ (decode b = "."
                          /\ contains "calibrating sensor"
                                      (buffer ++ decode b) = true)).
      { intros [E1 E2]. rewrite E1 in Edot at 1. rewrite E2 in Edot.
        discriminate. }
      repeat split; try reflexivity; tauto.
Qed.

(** ** The motion episode *)

Lemma process_keeps_motion_start (m : string) (w : World) :
  not_motion m ->
  current_motion_start (exec (process_serial_message m) w)
  = current_motion_start w.
Proof.
  intros [Hs He]. run_cases m w; try reflexivity; contradiction.
Qed.

Lemma read_step_keeps_motion_start (byte : option ascii) (buffer : string)
      (w : World) :
  Forall not_motion (lines_of [byte] buffer) ->
  current_motion_start (exec (read_step byte buffer) w)
  = current_motion_start w.
Proof.
  destruct byte as [b|]; [|reflexivity].
  cbn [lines_of]. run_step.
  destruct ((decode b =? LF) || (decode b =? CR))%string.
  - destruct (truthy (strip (buffer ++ decode b))); step_more;
      [|reflexivity].
    intros H. apply Forall_inv in H.
    pose proof (process_keeps_motion_start _ w H) as Hk.
    unfold exec in Hk.
    destruct (process_serial_message (strip (buffer ++ decode b)) w).
    exact Hk.
  - intros _.
    destruct ((decode b =? ".")%string
              && contains "calibrating sensor" (buffer ++ decode b));
      step_more; [|reflexivity].
    pose proof (progress_frame
                  (with_calibration_dots_received
                     (calibration_dots_received w + 1) w)) as Hp.
    unfold exec in Hp. cbv zeta in Hp.
    destruct (update_calibration_progress _).
    cbn in *. apply Hp.
Qed.

Lemma drain_keeps_motion_start (reads : list (option ascii))
      (buffer : string) (w : World) :
  Forall not_motion (lines_of reads buffer) ->
  current_motion_start (exec (drain reads buffer) w)
  = current_motion_start w.
Proof.
  revert buffer w. induction reads as [|byte rest IH]; intros buffer w H.
  - reflexivity.
  - rewrite (lines_of_cons byte rest buffer w) in H.
    apply Forall_app in H. destruct H as [H1 H2].
    unfold exec. rewrite drain_cons.
    fold (exec (drain rest (fst (read_step byte buffer w)))
               (exec (read_step byte buffer) w)).
    rewrite (IH _ _ H2). apply read_step_keeps_motion_start, H1.
Qed.

(** C2 (as amended). A motion start classified when the clock reads [T0]
    records [T0].  When no other motion start is classified before the next
    motion end, and that end is classified when the clock reads [T1] (the
    reader may take any steps in between that frame no motion line), the
    [motion_status] notification and the stored [motion_end] row both carry
    [duration = T1 - T0] in seconds, that is the difference of the two
    readings, in microseconds, divided by 1000000; and the recorded start is
    cleared.  A motion end classified in a world with no recorded start
    publishes and stores the same pair with no duration, and equally leaves
    no recorded start. *)
Theorem motion_duration
        (m0 m1 : string) (reads : list (option ascii)) (buffer : string)
        (w lone : World) :
  classify m0 = MotionStart ->
  classify m1 = MotionEnd ->
  Forall not_motion (lines_of reads buffer) ->
  current_motion_start lone = None ->
  let w1 := exec (process_serial_message m0) w in
  let T0 := clock w (S (ticks w)) in
  let w2 := exec (drain reads buffer) w1 in
  let T1 := clock w2 (S (ticks w2)) in
  let w3 := exec (process_serial_message m1) w2 in
  let d := Some (total_seconds (T1 - T0)) in
  let w4 := exec (process_serial_message m1) lone in
  current_motion_start w1 = Some T0
  /\ emitted w3
     = (emitted w2
        ++ [ serial_data m1 (clock w2 (ticks w2));
             motion_status "ended" m1 (present d);
             log_update "motion_end" ("Motion ended" ++ duration_text d)
                        (clock w2 (S (S (ticks w2)))) None ])%list
  /\ db w3
     = (db w2 ++ [{| event_type := "motion_end"; message := m1;
                     duration := d |}])%list
  /\ current_motion_start w3 = None
  /\ emitted w4
     = (emitted lone
        ++ [ serial_data m1 (clock lone (ticks lone));
             motion_status "ended" m1 (present None);
             log_update "motion_end" "Motion ended"
                        (clock lone (S (ticks lone))) None ])%list
  /\ db w4
     = (db lone ++ [{| event_type := "motion_end"; message := m1;
                       duration := None |}])%list
  /\ current_motion_start w4 = None
  /\ (total_seconds (T1 - T0) == inject_Z (T1 - T0) / 1000000)%Q.
Proof.
  intros H0 H1 Hmid Hlone w1 T0 w2 T1 w3 d w4.
  assert (Hunit : forall x, (total_seconds x == inject_Z x / 1000000)%Q).
  { intros x. unfold total_seconds, Qeq, Qdiv, Qmult, Qinv, inject_Z.
    cbn [Qnum Qden]. lia. }
  assert (Hw1 : current_motion_start w1 = Some T0).
  { subst w1 T0. run. rewrite H0. reflexivity. }
  assert (Hw2 : current_motion_start w2 = Some T0).
  { subst w2. rewrite drain_keeps_motion_start by exact Hmid. exact Hw1. }
  split; [exact Hw1|].
  subst w3 w4 d T1. generalize dependent w2. intros w2 Hw2.
  run. rewrite H1. run_more. rewrite Hw2, Hlone. run_more.
  rewrite <- !app_assoc. cbn [app]. repeat split. apply Hunit.
Qed.

(** ** The classifier *)

(** [contains_ignoring_case] finds the needle, up to case, at some position
    of the text. *)
Lemma contains_ignoring_case_position (needle hay : string) :
  contains_ignoring_case needle hay = true <->
  exists before rest,
    hay = before ++ rest /\ prefix_ignoring_case needle rest = true.
Proof.
  split.
  - induction hay as [|c hay IH]; cbn [contains_ignoring_case];
      intros H; apply orb_true_iff in H; destruct H as [H|H].
    + exists "", "". split; [reflexivity|exact H].
    + discriminate.
    + exists "", (String c hay). split; [reflexivity|exact H].
    + destruct (IH H) as (before & rest & -> & Hp).
      exists (String c before), rest. split; [reflexivity|exact Hp].
  - intros (before & rest & -> & Hp).
    induction before as [|c before IH].
    + destruct rest; cbn [append contains_ignoring_case];
        rewrite Hp; reflexivity.
    + cbn [append contains_ignoring_case]. rewrite IH. apply orb_true_r.
Qed.

(** C1 (as amended). The branch that [process_serial_message] takes is the
    first rule of the ordered list whose marker occurs in the line up to
    case: calibration start, else sensor active, else motion start, else
    motion end, else the generic message, which keeps the whole line.  A
    line with both motion markers and neither of the two markers that rank
    above them is a motion start and nothing else: it stores exactly one
    row, a [motion_start]. *)
Theorem classifier_first_match_wins (line : string) (w : World) :
  let ci (marker : string) := contains_ignoring_case marker line in
  classify line = first_match line
  /\ first_match line
     = (if ci "calibrating sensor" then CalibrationStart
        else if ci "sensor active" then SensorActive
        else if ci "motion detected" then MotionStart
        else if ci "motion ended" then MotionEnd
        else GenericSystemMessage line)
  /\ process_serial_message line
     = (timestamp <- now ;;
        emit (serial_data line timestamp) ;;
        match first_match line with
        | CalibrationStart => calibration_started
        | SensorActive => sensor_active
        | MotionStart => motion_detected line timestamp
        | MotionEnd => motion_ended line
        | GenericSystemMessage text => other_message text
        end)
  /\ (ci "motion detected" = true -> ci "motion ended" = true ->
      ci "calibrating sensor" = false -> ci "sensor active" = false ->
      classify line = MotionStart
      /\ db (exec (process_serial_message line) w)
         = (db w ++ [{| event_type := "motion_start"; message := line;
                        duration := None |}])%list).
Proof.
  intros ci.
  assert (Hfirst : first_match line
          = (if ci "calibrating sensor" then CalibrationStart
             else if ci "sensor active" then SensorActive
             else if ci "motion detected" then MotionStart
             else if ci "motion ended" then MotionEnd
             else GenericSystemMessage line)).
  { unfold first_match, rules, ci. cbn [find fst snd].
    repeat match goal with
           | |- context [contains_ignoring_case ?n line] =>
               destruct (contains_ignoring_case n line); try reflexivity
           end. }
  split; [apply classify_is_first_match|].
  split; [exact Hfirst|].
  split.
  { unfold process_serial_message.
    rewrite classify_is_first_match. reflexivity. }
  intros Hmd Hme Hcs Hsa.
  assert (Hc : classify line = MotionStart).
  { rewrite classify_is_first_match, Hfirst, Hcs, Hsa, Hmd. reflexivity. }
  split; [exact Hc|].
  run. rewrite Hc. reflexivity.
Qed.

(** ** The calibration scenario *)

(** C7 (as amended). In a session just connected, the two lines
    ["calibrating sensor...."] and ["sensor active"], the marker in lower
    case, publish: one progress notification per dot, counting 1 to 4, all
    before the first line is terminated and processed; then the
    notifications of the calibration start; then, for the second line, the
    terminal progress notification (progress 100, remaining 0, inactive). *)
Theorem calibration_scenario (w : World) (port : string) (baudrate : Z) :
  let w1 := exec (connect_serial port baudrate None) w in
  let input :=
    bytes ("calibrating sensor...." ++ LF ++ "sensor active" ++ LF) in
  let t := ticks w1 in
  exists p1 p2 p3 p4 : Q,
    (p1 == 10 # 3 /\ p2 == 20 # 3 /\ p3 == 10 /\ p4 == 40 # 3)%Q
    /\ emitted (exec (read_serial_data [input]) w1)
       = (emitted w1
          ++ [ calibration_progress p1 29 true (present 1);
               calibration_progress p2 28 true (present 2);
               calibration_progress p3 27 true (present 3);
               calibration_progress p4 26 true (present 4);
               serial_data "calibrating sensor...." (clock w t);
               sensor_status "calibrating";
               log_update "system" "Sensor calibration started..."
                          (clock w (S (S t))) None;
               serial_data "sensor active" (clock w (S (S (S t))));
               sensor_status "active";
               calibration_progress 100 0 false absent;
               log_update "system"
                 "✅ Sensor active and armed - Ready for detection"
                 (clock w (S (S (S (S t))))) None ])%list.
Proof.
  exists (100 # 30)%Q, (200 # 30)%Q, (300 # 30)%Q, (400 # 30)%Q.
  split; [repeat split; reflexivity|].
  destruct w as [s sc r cms cst d c t e rows].
  destruct s as [[|]|]; lazy -[app]; rewrite <- !app_assoc; reflexivity.
Qed.

(** ** The decoded text is ASCII *)

Lemma decode_ascii_only (b : ascii) : ascii_only (decode b).
Proof.
  unfold ascii_only, decode. intros c.
  destruct (nat_of_ascii b <? 128)%nat eqn:E; cbn; [|tauto].
  intros [<- | []]. apply Nat.ltb_lt, E.
Qed.

Lemma in_append (c : ascii) (s t : string) :
  In c (list_ascii_of_string (s ++ t)) <->
  In c (list_ascii_of_string s) \/ In c (list_ascii_of_string t).
Proof.
  induction s as [|a s IH]; cbn; [tauto|]. rewrite IH. tauto.
Qed.

Lemma in_lstrip (c : ascii) (s : string) :
  In c (list_ascii_of_string (lstrip s)) -> In c (list_ascii_of_string s).
Proof.
  induction s as [|a s IH]; cbn; [tauto|].
  destruct (isspace a); cbn; tauto.
Qed.

Lemma in_rstrip (c : ascii) (s : string) :
  In c (list_ascii_of_string (rstrip s)) -> In c (list_ascii_of_string s).
Proof.
  induction s as [|a s IH]; cbn; [tauto|].
  destruct (rstrip s) eqn:E.
  - destruct (isspace a); cbn; tauto.
  - cbn in *. tauto.
Qed.

Lemma strip_ascii_only (s : string) : ascii_only s -> ascii_only (strip s).
Proof.
  intros H c Hc. apply H, in_lstrip, in_rstrip, Hc.
Qed.

(** Every line that the reader hands on for classification is ASCII. *)
Lemma lines_of_ascii_only (reads : list (option ascii)) (buffer : string) :
  ascii_only buffer -> Forall ascii_only (lines_of reads buffer).
Proof.
  revert buffer. induction reads as [|[b|] rest IH]; intros buffer Hb;
    cbn [lines_of]; [constructor| |apply IH, Hb].
  assert (Hb' : ascii_only (buffer ++ decode b)).
  { intros c Hc. apply in_append in Hc. destruct Hc as [Hc|Hc];
      [apply Hb, Hc|apply (decode_ascii_only b), Hc]. }
  destruct ((decode b =? LF) || (decode b =? CR))%string.
  - apply Forall_app. split.
    + destruct (truthy (strip (buffer ++ decode b))); constructor;
        [apply strip_ascii_only, Hb'|constructor].
    + apply IH. intros c [].
  - apply IH, Hb'.
Qed.

(** ** The percentage in binary64 *)

(** X17. For every counter from 1 to 10000 (one dot a second for close to three
    hours) the float that Python publishes is below 100 up to 29 dots, is
    exactly 100 from 30 dots on, and does not decrease with the next dot. *)
Lemma percent_binary64_clamped_monotone (d : Z) :
  1 <= d <= 10000 ->
  (percent_binary64 d <=? percent_binary64 (d + 1))%float = true
  /\ (if 30 <=? d then (percent_binary64 d =? 100)%float
      else (percent_binary64 d <? 100)%float) = true.
Proof.
  intros Hd.
  assert (Hall : forallb
            (fun d => (percent_binary64 d <=? percent_binary64 (d + 1))%float
                      && (if 30 <=? d then (percent_binary64 d =? 100)%float
                          else (percent_binary64 d <? 100)%float))
            dot_counts = true) by (vm_compute; reflexivity).
  rewrite forallb_forall in Hall.
  apply andb_true_iff, Hall.
  unfold dot_counts. rewrite <- (Z2Nat.id d) by lia.
  apply in_map, in_seq. lia.
Qed.

(** ** The counter over a session *)

Lemma drain_dots_nonneg (reads : list (option ascii)) (buffer : string)
      (w : World) :
  0 <= calibration_dots_received w ->
  0 <= calibration_dots_received (exec (drain reads buffer) w).
Proof.
  revert buffer w. induction reads as [|byte rest IH]; intros buffer w H.
  - exact H.
  - unfold exec. rewrite drain_cons. apply IH.
    apply read_step_dots_nonneg, H.
Qed.

Lemma connect_starts_session (port : string) (baudrate : Z) (w : World) :
  let w' := exec (connect_serial port baudrate None) w in
  live w' = true
  /\ calibration_dots_received w' = 0
  /\ calibration_start_time w' = None.
Proof. run. destruct (is_open (ser w)); repeat split. Qed.

(** X18. In a session, from the connection on, the counter is never negative:
    the hypothesis of C4 holds at every dot. *)
Lemma session_dots_nonneg (port : string) (baudrate : Z) (w : World)
      (wakeups : list (list (option ascii))) :
  0 <= calibration_dots_received
         (exec (read_serial_data wakeups)
               (exec (connect_serial port baudrate None) w)).
Proof.
  destruct (connect_starts_session port baudrate w) as (Hlive & Hdots & _).
  unfold read_serial_data. unfold exec at 1.
  rewrite read_loop_live by exact Hlive.
  apply drain_dots_nonneg. rewrite Hdots. lia.
Qed.

(** ** More on text *)

Lemma append_empty_r (s : string) : s ++ "" = s.
Proof. induction s as [|c s IH]; cbn; [reflexivity|rewrite IH; reflexivity]. Qed.

Lemma append_assoc (s t u : string) : (s ++ t) ++ u = s ++ (t ++ u).
Proof. induction s as [|c s IH]; cbn; [reflexivity|rewrite IH; reflexivity]. Qed.

Lemma decode_cases (b : ascii) :
  (decodable (Some b) = true /\ decode b = String b "")
  \/ (decodable (Some b) = false /\ decode b = "").
Proof.
  unfold decodable, decode.
  destruct (nat_of_ascii b <? 128)%nat; [left|right]; split; reflexivity.
Qed.

Lemma rstrip_cons_nonempty (c : ascii) (t : string) :
  rstrip t <> "" -> rstrip (String c t) = String c (rstrip t).
Proof.
  intros H. cbn [rstrip]. destruct (rstrip t); [contradiction|reflexivity].
Qed.

Lemma rstrip_cons_nonspace (c : ascii) (t : string) :
  isspace c = false -> rstrip (String c t) = String c (rstrip t).
Proof.
  intros H. cbn [rstrip]. rewrite H. destruct (rstrip t); reflexivity.
Qed.

Lemma rstrip_append_space (s : string) (c : ascii) :
  isspace c = true -> rstrip (s ++ String c "") = rstrip s.
Proof.
  intros Hc. induction s as [|a s IH].
  - cbn. rewrite Hc. reflexivity.
  - cbn [append rstrip]. rewrite IH. reflexivity.
Qed.

(** Trimming does not see a space added at the end. *)
Lemma strip_append_space (s : string) (c : ascii) :
  isspace c = true -> strip (s ++ String c "") = strip s.
Proof.
  intros Hc. unfold strip. induction s as [|a s IH].
  - cbn. rewrite Hc. reflexivity.
  - cbn [append lstrip]. destruct (isspace a); [exact IH|].
    apply (rstrip_append_space (String a s) c Hc).
Qed.

Lemma rstrip_idempotent (s : string) : rstrip (rstrip s) = rstrip s.
Proof.
  induction s as [|a s IH]; [reflexivity|].
  cbn [rstrip]. destruct (rstrip s) as [|b r] eqn:E.
  - destruct (isspace a) eqn:Ea; [reflexivity|].
    cbn. rewrite Ea. reflexivity.
  - rewrite rstrip_cons_nonempty; rewrite IH; [reflexivity|discriminate].
Qed.

Lemma rstrip_starts (s : string) :
  starts_with_nonspace s = true -> starts_with_nonspace (rstrip s) = true.
Proof.
  destruct s as [|a s]; [discriminate|]. cbn [starts_with_nonspace].
  intros Ha. apply negb_true_iff in Ha.
  rewrite (rstrip_cons_nonspace a s Ha). cbn. rewrite Ha. reflexivity.
Qed.

Lemma lstrip_starts (s : string) :
  lstrip s = "" \/ starts_with_nonspace (lstrip s) = true.
Proof.
  induction s as [|a s IH]; [left; reflexivity|].
  cbn [lstrip]. destruct (isspace a) eqn:Ea; [exact IH|].
  right. cbn. rewrite Ea. reflexivity.
Qed.

Lemma lstrip_fixed (s : string) :
  starts_with_nonspace s = true -> lstrip s = s.
Proof.
  destruct s as [|a s]; [discriminate|]. cbn.
  intros Ha. apply negb_true_iff in Ha. rewrite Ha. reflexivity.
Qed.

Lemma rstrip_ends (s : string) :
  rstrip s = "" \/ ends_with_nonspace (rstrip s) = true.
Proof.
  induction s as [|a s IH]; [left; reflexivity|].
  cbn [rstrip]. destruct (rstrip s) as [|b r] eqn:E.
  - destruct (isspace a) eqn:Ea; [left; reflexivity|].
    right. cbn. rewrite Ea. reflexivity.
  - right. destruct IH as [IH|IH]; [discriminate|]. exact IH.
Qed.

(** A trimmed text is empty, or starts and ends with a character that is
    not a space; trimming it again changes nothing. *)
Lemma strip_shape (s : string) :
  strip s = ""
  \/ (starts_with_nonspace (strip s) = true
      /\ ends_with_nonspace (strip s) = true).
Proof.
  unfold strip. destruct (lstrip_starts s) as [E|E].
  - left. rewrite E. reflexivity.
  - destruct (rstrip_ends (lstrip s)) as [R|R]; [left; exact R|].
    right. split; [apply rstrip_starts, E|exact R].
Qed.

Lemma strip_idempotent (s : string) : strip (strip s) = strip s.
Proof.
  destruct (strip_shape s) as [E|[Hs _]].
  - rewrite E. reflexivity.
  - unfold strip at 1. rewrite (lstrip_fixed _ Hs).
    unfold strip. apply rstrip_idempotent.
Qed.

Lemma prefix_empty (s : string) : prefix "" s = true.
Proof. destruct s; reflexivity. Qed.

Lemma prefix_append (m s t : string) :
  prefix m s = true -> prefix m (s ++ t) = true.
Proof.
  revert s. induction m as [|a m IH]; intros s H;
    [destruct (s ++ t); reflexivity|].
  destruct s as [|b s]; [discriminate|].
  cbn in *. destruct (ascii_dec a b); [apply IH, H|discriminate].
Qed.

(** What a text contains it still contains when more text follows. *)
Lemma contains_append (m s t : string) :
  contains m s = true -> contains m (s ++ t) = true.
Proof.
  induction s as [|b s IH]; intros H.
  - cbn in H. rewrite orb_false_r in H.
    destruct m; [|discriminate]. destruct t; reflexivity.
  - cbn [contains] in H. apply orb_true_iff in H.
    change (String b s ++ t) with (String b (s ++ t)).
    cbn [contains]. apply orb_true_iff. destruct H as [H|H].
    + left. apply (prefix_append m (String b s) t H).
    + right. apply IH, H.
Qed.

Lemma contains_empty (m : string) : m <> "" -> contains m "" = false.
Proof. destruct m; [contradiction|reflexivity]. Qed.

Lemma contains_lstrip (m s : string) :
  starts_with_nonspace m = true ->
  contains m s = true -> contains m (lstrip s) = true.
Proof.
  intros Hm. induction s as [|b s IH]; intros H; [exact H|].
  cbn [lstrip]. destruct (isspace b) eqn:Eb; [|exact H].
  apply IH. cbn [contains] in H. apply orb_true_iff in H.
  destruct H as [H|H]; [|exact H].
  destruct m as [|a m]; [discriminate|]. cbn in H, Hm.
  destruct (ascii_dec a b) as [->|]; [|discriminate].
  rewrite Eb in Hm. discriminate.
Qed.

Lemma prefix_rstrip (m s : string) :
  ends_with_nonspace m = true ->
  prefix m s = true -> prefix m (rstrip s) = true.
Proof.
  revert s. induction m as [|a m IH]; intros s Hm H; [discriminate|].
  destruct s as [|b s]; [discriminate|].
  cbn [prefix] in H. destruct (ascii_dec a b) as [->|]; [|discriminate].
  destruct m as [|a' m].
  - cbn in Hm. apply negb_true_iff in Hm.
    rewrite (rstrip_cons_nonspace b s Hm). cbn [prefix].
    destruct (ascii_dec b b); [apply prefix_empty|contradiction].
  - assert (Hp : prefix (String a' m) (rstrip s) = true)
      by (apply IH; [exact Hm|exact H]).
    rewrite rstrip_cons_nonempty.
    + cbn [prefix]. destruct (ascii_dec b b); [exact Hp|contradiction].
    + intros E. rewrite E in Hp. discriminate.
Qed.

Lemma contains_rstrip (m s : string) :
  ends_with_nonspace m = true ->
  contains m s = true -> contains m (rstrip s) = true.
Proof.
  intros Hm. assert (Hne : m <> "") by (destruct m; discriminate).
  induction s as [|b s IH]; intros H; [exact H|].
  cbn [contains] in H. apply orb_true_iff in H. destruct H as [H|H].
  - assert (Hp := prefix_rstrip m (String b s) Hm H).
    destruct (rstrip (String b s)); cbn [contains]; rewrite Hp; reflexivity.
  - assert (Hc := IH H).
    rewrite rstrip_cons_nonempty.
    + cbn [contains]. rewrite Hc. apply orb_true_r.
    + intros E. rewrite E, (contains_empty m Hne) in Hc. discriminate.
Qed.

(** A marker with no space at either end survives trimming. *)
Lemma contains_strip (m s : string) :
  starts_with_nonspace m = true -> ends_with_nonspace m = true ->
  contains m s = true -> contains m (strip s) = true.
Proof.
  intros Hs He H. apply contains_rstrip; [exact He|].
  apply contains_lstrip; assumption.
Qed.

Lemma same_char_refl (c : ascii) : same_char_ignoring_case c c = true.
Proof. unfold same_char_ignoring_case. rewrite Ascii.eqb_refl. reflexivity. Qed.

Lemma prefix_ignoring_case_of_prefix (m s : string) :
  prefix m s = true -> prefix_ignoring_case m s = true.
Proof.
  revert s. induction m as [|a m IH]; intros s H;
    [destruct s; reflexivity|].
  destruct s as [|b s]; [discriminate|]. cbn in *.
  destruct (ascii_dec a b) as [->|]; [|discriminate].
  rewrite same_char_refl. apply IH, H.
Qed.

Lemma contains_ignoring_case_of_contains (m s : string) :
  contains m s = true -> contains_ignoring_case m s = true.
Proof.
  induction s as [|b s IH]; cbn [contains contains_ignoring_case];
    intros H; apply orb_true_iff in H; apply orb_true_iff;
    destruct H as [H|H]; try discriminate.
  - left. apply prefix_ignoring_case_of_prefix, H.
  - left. apply prefix_ignoring_case_of_prefix, H.
  - right. apply IH, H.
Qed.

(** A buffer that holds the lowercase marker is a calibration start once
    trimmed: the test of the dot counter implies the test of the
    classifier. *)
Lemma marker_in_buffer_classifies (buffer : string) :
  contains "calibrating sensor" buffer = true ->
  classify (strip buffer) = CalibrationStart.
Proof.
  intros H. unfold classify. cbv zeta.
  rewrite contains_lower by reflexivity.
  rewrite contains_ignoring_case_of_contains; [reflexivity|].
  apply contains_strip; [reflexivity|reflexivity|exact H].
Qed.

(** ** One step of the reader, case by case *)

Lemma read_step_undecodable (read : option ascii) (buffer : string)
      (w : World) :
  decodable read = false -> read_step read buffer w = (buffer, w).
Proof.
  destruct read as [b|]; [|reflexivity]. intros H.
  destruct (decode_cases b) as [[E _]|[_ E]]; [congruence|].
  unfold read_step. rewrite E, append_empty_r. reflexivity.
Qed.

Lemma read_step_terminator (b : ascii) (buffer : string) (w : World) :
  terminates (Some b) = true ->
  read_step (Some b) buffer w
  = ("", if truthy (strip (buffer ++ decode b))
         then exec (process_serial_message (strip (buffer ++ decode b))) w
         else w).
Proof.
  unfold terminates. intros H. run_step. rewrite H.
  destruct (truthy (strip (buffer ++ decode b))); step_more; [|reflexivity].
  destruct (process_serial_message _ w). reflexivity.
Qed.

Lemma read_step_dot (b : ascii) (buffer : string) (w : World) :
  decode b = "." ->
  contains "calibrating sensor" (buffer ++ ".") = true ->
  read_step (Some b) buffer w
  = (buffer ++ ".",
     exec update_calibration_progress
          (with_calibration_dots_received
             (calibration_dots_received w + 1) w)).
Proof.
  intros E H. run_step. rewrite E, H.
  change ((("." =? LF) || ("." =? CR))%string) with false.
  change (("." =? ".")%string) with true. step_more.
  destruct (update_calibration_progress _). reflexivity.
Qed.

Lemma read_step_plain (b : ascii) (buffer : string) (w : World) :
  terminates (Some b) = false ->
  (decode b = "." ->
   contains "calibrating sensor" (buffer ++ decode b) = false) ->
  read_step (Some b) buffer w = (buffer ++ decode b, w).
Proof.
  unfold terminates. intros Ht Hd. run_step. rewrite Ht.
  destruct (decode b =? ".")%string eqn:E; [|reflexivity].
  apply String.eqb_eq in E. rewrite (Hd E). reflexivity.
Qed.

Lemma terminator_is_space (b : ascii) :
  terminates (Some b) = true ->
  exists c, decode b = String c "" /\ isspace c = true
            /\ (c = ascii_of_nat 10 \/ c = ascii_of_nat 13).
Proof.
  unfold terminates. intros H. apply orb_true_iff in H.
  destruct H as [H|H]; apply String.eqb_eq in H; rewrite H;
    eexists; (split; [reflexivity|split; [reflexivity|auto]]).
Qed.

(** ** Bytes that do not decode *)

(** X1. A byte of 128 or more, like an empty read, changes neither the
    buffer nor the world: the reader behaves as if the undecodable bytes had
    never been sent. *)
Theorem drain_ignores_undecodable
        (reads : list (option ascii)) (buffer : string) (w : World) :
  drain reads buffer w = drain (filter decodable reads) buffer w.
Proof.
  revert buffer w. induction reads as [|read rest IH]; intros buffer w.
  - reflexivity.
  - cbn [filter]. destruct (decodable read) eqn:E.
    + rewrite !drain_cons. apply IH.
    + rewrite drain_cons. unfold exec.
      rewrite (read_step_undecodable read buffer w E). apply IH.
Qed.

(** ** Line endings *)

(** X2. The three line endings are handled alike: after any reads, a
    carriage return followed by a line feed leaves the reader exactly where
    a lone line feed or a lone carriage return leaves it, the line being
    processed once. *)
Theorem line_endings_agree
        (reads : list (option ascii)) (buffer : string) (w : World) :
  drain (reads ++ bytes (CR ++ LF)) buffer w
  = drain (reads ++ bytes LF) buffer w
  /\ drain (reads ++ bytes CR) buffer w
     = drain (reads ++ bytes LF) buffer w.
Proof.
  rewrite !drain_app.
  generalize (fst (drain reads buffer w)) (exec (drain reads buffer) w).
  clear. intros buffer w.
  change (bytes (CR ++ LF))
    with [Some (ascii_of_nat 13); Some (ascii_of_nat 10)].
  change (bytes LF) with [Some (ascii_of_nat 10)].
  change (bytes CR) with [Some (ascii_of_nat 13)].
  assert (Hcr : read_step (Some (ascii_of_nat 13)) buffer w
                = read_step (Some (ascii_of_nat 10)) buffer w).
  { rewrite !read_step_terminator by reflexivity.
    change (decode (ascii_of_nat 13)) with (String (ascii_of_nat 13) "").
    change (decode (ascii_of_nat 10)) with (String (ascii_of_nat 10) "").
    rewrite !strip_append_space by reflexivity. reflexivity. }
  rewrite !drain_cons. unfold exec. rewrite Hcr.
  rewrite (read_step_terminator (ascii_of_nat 10) buffer w eq_refl).
  cbn [fst snd drain ret]. split; [|reflexivity].
  rewrite read_step_terminator by reflexivity. reflexivity.
Qed.

(** ** A line in progress *)

(** X3. Until a line is terminated nothing happens: reads with no
    terminator among them, on a buffer that does not come to hold the
    calibration marker, only extend the buffer; the world is unchanged,
    nothing is published and nothing stored. *)
Theorem partial_line_is_silent
        (reads : list (option ascii)) (buffer : string) (w : World) :
  Forall (fun read => terminates read = false) reads ->
  contains "calibrating sensor" (buffer ++ decoded reads) = false ->
  drain reads buffer w = (buffer ++ decoded reads, w).
Proof.
  revert buffer. induction reads as [|[b|] rest IH]; intros buffer Ht Hm.
  - cbn. rewrite append_empty_r. reflexivity.
  - cbn [decoded] in *. rewrite <- append_assoc in Hm |- *.
    rewrite drain_cons. unfold exec.
    rewrite read_step_plain.
    + apply IH; [exact (Forall_inv_tail Ht)|exact Hm].
    + exact (Forall_inv Ht).
    + intros _.
      destruct (contains "calibrating sensor" (buffer ++ decode b)) eqn:E;
        [|reflexivity].
      rewrite (contains_append _ _ (decoded rest) E) in Hm. discriminate.
  - rewrite drain_cons. apply IH; [exact (Forall_inv_tail Ht)|exact Hm].
Qed.

(** ** Dots *)

Lemma dot_step (buffer : string) (w : World) :
  0 <= calibration_dots_received w ->
  contains "calibrating sensor" buffer = true ->
  read_step (Some "."%char) buffer w
  = (buffer ++ ".",
     with_emitted
       (emitted w ++ progress_run (calibration_dots_received w) 1)
       (with_calibration_dots_received
          (calibration_dots_received w + 1) w)).
Proof.
  intros Hd Hb.
  rewrite read_step_dot;
    [|reflexivity|apply contains_append, Hb].
  f_equal. run.
  replace (0 <? calibration_dots_received w + 1) with true
    by (symmetry; apply Z.ltb_lt; lia).
  reflexivity.
Qed.

(** X4. On a buffer that holds the marker, [n] dots in a row add [n] to the
    counter and publish exactly [n] progress notifications, one per dot and
    in order, numbered from the counter's next value; nothing else in the
    world changes. *)
Theorem dots_publish_one_each
        (n : nat) (buffer : string) (w : World) :
  0 <= calibration_dots_received w ->
  contains "calibrating sensor" buffer = true ->
  drain (repeat (Some "."%char) n) buffer w
  = (buffer ++ decoded (repeat (Some "."%char) n),
     with_emitted
       (emitted w ++ progress_run (calibration_dots_received w) n)
       (with_calibration_dots_received
          (calibration_dots_received w + Z.of_nat n) w)).
Proof.
  revert buffer w. induction n as [|n IH]; intros buffer w Hd Hb.
  - cbn. rewrite append_empty_r. destruct w; cbn in *.
    unfold with_emitted, with_calibration_dots_received; cbn.
    rewrite app_nil_r, Z.add_0_r. reflexivity.
  - cbn [repeat]. rewrite drain_cons. unfold exec.
    rewrite (dot_step buffer w Hd Hb). cbn [fst snd].
    rewrite IH; [|cbn; lia|apply contains_append, Hb].
    cbn [decoded]. change (decode ".") with ".".
    rewrite append_assoc. f_equal.
    destruct w; cbn.
    unfold with_emitted, with_calibration_dots_received; cbn.
    rewrite <- app_assoc. cbn [app]. f_equal. lia.
Qed.

(** ** The counter outside a calibration line *)

Lemma read_step_counter_invariant
      (read : option ascii) (buffer : string) (w : World) :
  contains "calibrating sensor" buffer = true
  \/ calibration_dots_received w = 0 ->
  contains "calibrating sensor" (fst (read_step read buffer w)) = true
  \/ calibration_dots_received (exec (read_step read buffer) w) = 0.
Proof.
  intros Inv. destruct read as [b|]; [|exact Inv].
  destruct (terminates (Some b)) eqn:Et.
  - right. unfold exec. rewrite read_step_terminator by exact Et.
    cbn [snd].
    pose proof (process_calibration_fields (strip (buffer ++ decode b)) w)
      as [Hc Hn]. cbv zeta in Hc, Hn.
    destruct Inv as [Hm|Hz].
    + assert (Hcl : classify (strip (buffer ++ decode b)) = CalibrationStart)
        by (apply marker_in_buffer_classifies, contains_append, Hm).
      destruct (strip (buffer ++ decode b)) eqn:Es; [discriminate|].
      cbn [truthy]. apply Hc, Hcl.
    + destruct (truthy (strip (buffer ++ decode b))); [|exact Hz].
      destruct (classify (strip (buffer ++ decode b))) eqn:Ec;
        try (destruct Hn as [-> _]; [discriminate|exact Hz]).
      apply Hc. reflexivity.
  - destruct (decode b =? ".")%string eqn:Ed;
      [destruct (contains "calibrating sensor" (buffer ++ ".")) eqn:Em|].
    + apply String.eqb_eq in Ed.
      rewrite (read_step_dot b buffer w Ed Em). left. exact Em.
    + apply String.eqb_eq in Ed. unfold exec.
      rewrite read_step_plain; [|exact Et|intros _; rewrite Ed; exact Em].
      cbn [fst snd]. destruct Inv as [Hm|Hz]; [|right; exact Hz].
      left. apply contains_append, Hm.
    + apply String.eqb_neq in Ed. unfold exec.
      rewrite read_step_plain; [|exact Et|intros E; contradiction].
      cbn [fst snd]. destruct Inv as [Hm|Hz]; [|right; exact Hz].
      left. apply contains_append, Hm.
Qed.

Lemma drain_counter_invariant
      (reads : list (option ascii)) (buffer : string) (w : World) :
  contains "calibrating sensor" buffer = true
  \/ calibration_dots_received w = 0 ->
  contains "calibrating sensor" (fst (drain reads buffer w)) = true
  \/ calibration_dots_received (exec (drain reads buffer) w) = 0.
Proof.
  revert buffer w. induction reads as [|read rest IH]; intros buffer w Inv.
  - exact Inv.
  - unfold exec. rewrite drain_cons. apply IH.
    apply read_step_counter_invariant, Inv.
Qed.

(** X5. Throughout a session the counter is zero unless a calibration line
    is in progress: after any reads since the connection, either the buffer
    holds the marker or the counter is 0.  The dots counted on a line are
    dropped when the line ends, since a line that counted dots is classified
    as a calibration start and resets the counter. *)
Theorem counter_zero_outside_calibration_line
        (port : string) (baudrate : Z) (w : World)
        (wakeups : list (list (option ascii))) :
  let r := read_serial_data wakeups
             (exec (connect_serial port baudrate None) w) in
  contains "calibrating sensor" (fst r) = true
  \/ calibration_dots_received (snd r) = 0.
Proof.
  destruct (connect_starts_session port baudrate w) as (Hlive & Hdots & _).
  cbv zeta. unfold read_serial_data.
  rewrite read_loop_live by exact Hlive.
  apply drain_counter_invariant. right. exact Hdots.
Qed.

(** ** The lines that reach the classifier *)

Lemma in_strip (c : ascii) (s : string) :
  In c (list_ascii_of_string (strip s)) -> In c (list_ascii_of_string s).
Proof. intros H. apply in_lstrip, in_rstrip, H. Qed.

Lemma lines_of_well_formed (reads : list (option ascii)) (buffer : string) :
  no_terminator buffer -> ascii_only buffer ->
  Forall (fun line => line <> "" /\ strip line = line
                      /\ no_terminator line /\ ascii_only line)
         (lines_of reads buffer).
Proof.
  revert buffer. induction reads as [|[b|] rest IH]; intros buffer Hn Ha;
    cbn [lines_of]; [constructor| |apply IH; assumption].
  fold (terminates (Some b)). destruct (terminates (Some b)) eqn:Et.
  - apply Forall_app. split; [|apply IH; intros c []].
    destruct (terminator_is_space b Et) as (c & -> & Hc & _).
    rewrite (strip_append_space buffer c Hc).
    destruct (strip buffer) eqn:Es; cbn [truthy]; constructor;
      [|constructor].
    rewrite <- Es. repeat split.
    + rewrite Es. discriminate.
    + apply strip_idempotent.
    + apply Hn, in_strip, H.
    + apply Hn, in_strip, H.
    + intros c' Hc'. apply Ha, in_strip, Hc'.
  - apply IH.
    + intros c Hc. apply in_append in Hc. destruct Hc as [Hc|Hc];
        [apply Hn, Hc|].
      unfold terminates in Et.
      destruct (decode_cases b) as [[_ E]|[_ E]]; rewrite E in Hc, Et;
        [|destruct Hc].
      destruct Hc as [<-|[]].
      apply orb_false_iff in Et. destruct Et as [E1 E2].
      apply String.eqb_neq in E1, E2. unfold LF, CR in E1, E2.
      split; congruence.
    + intros c Hc. apply in_append in Hc. destruct Hc as [Hc|Hc];
        [apply Ha, Hc|apply (decode_ascii_only b), Hc].
Qed.

(** X6. Every line that the reader hands to [process_serial_message] is
    non-empty, is already trimmed (it has no space at either end), holds no
    line feed or carriage return, and is made of code points below 128. *)
Theorem framed_lines_well_formed
        (wakeups : list (list (option ascii))) (w : World) :
  exists lines,
    lines_emitted (exec (read_serial_data wakeups) w)
    = (lines_emitted w ++ lines)%list
    /\ Forall (fun line => line <> "" /\ strip line = line
                           /\ no_terminator line /\ ascii_only line)
              lines.
Proof.
  unfold read_serial_data, exec. destruct (live w) eqn:Hw.
  - rewrite read_loop_live by exact Hw.
    exists (lines_of (List.concat wakeups) "").
    split; [apply drain_frame|].
    apply lines_of_well_formed; intros c [].
  - rewrite read_loop_dead by exact Hw. exists [].
    split; [symmetry; apply app_nil_r|constructor].
Qed.

(** ** What the reader never touches *)

Lemma process_appends (m : string) (w : World) :
  let w' := exec (process_serial_message m) w in
  (exists published, emitted w' = (emitted w ++ published)%list)
  /\ (exists stored, db w' = (db w ++ stored)%list)
  /\ (ticks w <= ticks w')%nat.
Proof.
  run_cases m w; rewrite <- ?app_assoc;
    (split; [eexists; reflexivity
            |split; [first [eexists; reflexivity
                           |exists []; symmetry; apply app_nil_r]
                    |lia]]).
Qed.

Lemma read_step_appends (read : option ascii) (buffer : string) (w : World) :
  let w' := exec (read_step read buffer) w in
  (exists published, emitted w' = (emitted w ++ published)%list)
  /\ (exists stored, db w' = (db w ++ stored)%list)
  /\ (ticks w <= ticks w')%nat
  /\ serial_connected w' = serial_connected w.
Proof.
  assert (Hsame : (exists published : list Notification,
                      emitted w = (emitted w ++ published)%list)
                  /\ (exists stored : list IntrusionEvent,
                         db w = (db w ++ stored)%list)
                  /\ (ticks w <= ticks w)%nat
                  /\ serial_connected w = serial_connected w).
  { repeat split; try (exists []; symmetry; apply app_nil_r); lia. }
  destruct read as [b|]; [|exact Hsame]. cbv zeta. unfold exec.
  destruct (terminates (Some b)) eqn:Et.
  - rewrite read_step_terminator by exact Et. cbn [snd].
    destruct (truthy (strip (buffer ++ decode b))); [|exact Hsame].
    pose proof (process_appends (strip (buffer ++ decode b)) w)
      as (He & Hd & Ht).
    pose proof (process_frame (strip (buffer ++ decode b)) w)
      as (_ & _ & Hs & _).
    repeat split; assumption.
  - destruct (decode b =? ".")%string eqn:Ed;
      [destruct (contains "calibrating sensor" (buffer ++ ".")) eqn:Em|].
    + apply String.eqb_eq in Ed. rewrite (read_step_dot b buffer w Ed Em).
      cbn [snd]. run.
      destruct (0 <? calibration_dots_received w + 1); cbn;
        repeat split; try lia;
        first [eexists; reflexivity|exists []; symmetry; apply app_nil_r].
    + apply String.eqb_eq in Ed.
      rewrite read_step_plain; [exact Hsame|exact Et|].
      intros _; rewrite Ed; exact Em.
    + apply String.eqb_neq in Ed.
      rewrite read_step_plain; [exact Hsame|exact Et|].
      intros E; contradiction.
Qed.

(** X7. The reader only ever adds: whatever it reads, the notifications
    published before and the rows stored before are still there, in order,
    at the front of the new lists; the count of clock readings does not go
    down, and the port, the two connection flags and the clock are left as
    they were. *)
Theorem reader_only_appends
        (reads : list (option ascii)) (buffer : string) (w : World) :
  let w' := exec (drain reads buffer) w in
  (exists published, emitted w' = (emitted w ++ published)%list)
  /\ (exists stored, db w' = (db w ++ stored)%list)
  /\ (ticks w <= ticks w')%nat
  /\ ser w' = ser w /\ reading w' = reading w
  /\ serial_connected w' = serial_connected w /\ clock w' = clock w.
Proof.
  revert buffer w. induction reads as [|read rest IH]; intros buffer w.
  - cbn. repeat split; try (exists []; symmetry; apply app_nil_r); lia.
  - cbv zeta. unfold exec. rewrite drain_cons.
    specialize (IH (fst (read_step read buffer w))
                   (exec (read_step read buffer) w)).
    cbv zeta in IH.
    destruct IH as ([p2 Hp2] & [s2 Hs2] & Ht2 & Hser & Hr & Hc & Hk).
    pose proof (read_step_appends read buffer w)
      as ([p1 Hp1] & [s1 Hs1] & Ht1 & Hc1).
    pose proof (read_step_frame read buffer w) as (Hser1 & Hr1 & Hk1).
    unfold exec in *.
    rewrite Hp2, Hs2, Hser, Hr, Hc, Hk, Hp1, Hs1, Hser1, Hr1, Hc1, Hk1.
    rewrite <- !app_assoc.
    repeat split; try (eexists; reflexivity). lia.
Qed.

(** ** The two motion branches, in full *)

Lemma motion_start_effect (m : string) (w : World) :
  classify m = MotionStart ->
  let w' := exec (process_serial_message m) w in
  current_motion_start w' = Some (clock w (S (ticks w)))
  /\ db w' = (db w ++ [{| event_type := "motion_start"; message := m;
                          duration := None |}])%list
  /\ emitted w'
     = (emitted w
        ++ [ serial_data m (clock w (ticks w));
             motion_status "detected" m absent;
             log_update "motion_start" "🚨 MOTION DETECTED!"
                        (clock w (S (S (ticks w)))) None;
             motion_alert "detected" (clock w (ticks w))
                          "Motion detected!" ])%list
  /\ ticks w' = S (S (S (ticks w))) /\ clock w' = clock w.
Proof.
  intros H. run. rewrite H. run_more.
  rewrite <- !app_assoc. repeat split.
Qed.

Lemma motion_end_effect (m : string) (w : World) (t0 : Z) :
  classify m = MotionEnd ->
  current_motion_start w = Some t0 ->
  let w' := exec (process_serial_message m) w in
  let d := Some (total_seconds (clock w (S (ticks w)) - t0)) in
  current_motion_start w' = None
  /\ db w' = (db w ++ [{| event_type := "motion_end"; message := m;
                          duration := d |}])%list
  /\ emitted w'
     = (emitted w
        ++ [ serial_data m (clock w (ticks w));
             motion_status "ended" m (present d);
             log_update "motion_end" ("Motion ended" ++ duration_text d)
                        (clock w (S (S (ticks w)))) None ])%list
  /\ ticks w' = S (S (S (ticks w))) /\ clock w' = clock w.
Proof.
  intros H Hs. run. rewrite H. run_more. rewrite Hs. run_more.
  rewrite <- !app_assoc. repeat split.
Qed.

Lemma connection_keeps_motion (port : string) (baudrate : Z)
      (failure : option string) (w : World) :
  let w1 := exec disconnect_serial w in
  let w2 := exec (connect_serial port baudrate failure) w in
  (current_motion_start w1 = current_motion_start w
   /\ db w1 = db w /\ clock w1 = clock w /\ ticks w1 = S (ticks w))
  /\ (current_motion_start w2 = current_motion_start w
      /\ db w2 = db w /\ clock w2 = clock w /\ ticks w2 = S (ticks w)).
Proof.
  run. destruct (is_open (ser w)), failure; repeat split.
Qed.

(** ** Motion episodes *)

(** X8. The last start wins: when two motion starts are classified before
    a motion end, the duration published and stored with the end is measured
    from the second start, and both starts are stored. *)
Theorem last_motion_start_wins (m0 m0' m1 : string) (w : World) :
  classify m0 = MotionStart ->
  classify m0' = MotionStart ->
  classify m1 = MotionEnd ->
  let w1 := exec (process_serial_message m0) w in
  let w2 := exec (process_serial_message m0') w1 in
  let w3 := exec (process_serial_message m1) w2 in
  let d := Some (total_seconds (clock w (S (ticks w2))
                                - clock w (S (ticks w1)))) in
  db w3
  = (db w
     ++ [ {| event_type := "motion_start"; message := m0;
             duration := None |};
          {| event_type := "motion_start"; message := m0';
             duration := None |};
          {| event_type := "motion_end"; message := m1;
             duration := d |} ])%list
  /\ (exists before after,
         emitted w3
         = (before ++ motion_status "ended" m1 (present d) :: after)%list)
  /\ current_motion_start w3 = None.
Proof.
  intros H0 H0' H1 w1 w2 w3 d.
  destruct (motion_start_effect m0 w H0) as (_ & Hd1 & _ & _ & Hc1).
  destruct (motion_start_effect m0' w1 H0') as (Hs2 & Hd2 & _ & _ & Hc2).
  fold w1 in Hd1, Hc1. fold w2 in Hs2, Hd2, Hc2.
  destruct (motion_end_effect m1 w2 _ H1 Hs2) as (Hs3 & Hd3 & He3 & _).
  fold w3 in Hs3, Hd3, He3.
  rewrite Hc2, Hc1 in Hd3, He3.
  split; [|split; [|exact Hs3]].
  - rewrite Hd3, Hd2, Hd1, <- !app_assoc. reflexivity.
  - exists (emitted w2 ++ [serial_data m1 (clock w (ticks w2))])%list.
    eexists. rewrite He3, <- app_assoc. reflexivity.
Qed.

Lemma total_seconds_zero (x : Z) :
  Qeq_bool (total_seconds x) 0 = (x =? 0).
Proof.
  unfold total_seconds, Qeq_bool. cbn.
  rewrite Z.mul_1_r. destruct x; reflexivity.
Qed.

(** X9. A motion end whose two clock readings are equal stores a row with
    the duration 0 and publishes that duration in [motion_status], and its
    log entry reads ["Motion ended"] with no duration at all, as for an end
    with no recorded start; with any other pair of readings the row and the
    notification carry the duration and the text names it. *)
Theorem zero_duration_is_not_logged (m : string) (w : World) (t0 : Z) :
  classify m = MotionEnd ->
  current_motion_start w = Some t0 ->
  let t1 := clock w (S (ticks w)) in
  let d := total_seconds (t1 - t0) in
  let text := if t1 =? t0 then "Motion ended"
              else "Motion ended (Duration: " ++ format_1f d ++ "s)" in
  emitted (exec (process_serial_message m) w)
  = (emitted w
     ++ [ serial_data m (clock w (ticks w));
          motion_status "ended" m (present (Some d));
          log_update "motion_end" text (clock w (S (S (ticks w)))) None ])%list
  /\ db (exec (process_serial_message m) w)
     = (db w ++ [{| event_type := "motion_end"; message := m;
                    duration := Some d |}])%list
  /\ (t1 = t0 -> (d == 0)%Q).
Proof.
  intros H Hs t1 d text.
  destruct (motion_end_effect m w t0 H Hs) as (_ & Hd & He & _).
  rewrite He, Hd. subst text d t1. unfold duration_text.
  rewrite total_seconds_zero.
  replace (clock w (S (ticks w)) - t0 =? 0)
    with (clock w (S (ticks w)) =? t0)
    by (destruct (Z.eqb_spec (clock w (S (ticks w))) t0);
        symmetry; [apply Z.eqb_eq|apply Z.eqb_neq]; lia).
  split; [|split].
  - destruct (clock w (S (ticks w)) =? t0); reflexivity.
  - reflexivity.
  - intros ->. rewrite Z.sub_diag. reflexivity.
Qed.

(** X10. The recorded start outlives the session: neither
    [disconnect_serial] nor [connect_serial] clears it, so a motion end in
    the next session is given the duration since a motion start of the
    session before. *)
Theorem motion_start_survives_reconnect
        (m0 m1 port : string) (baudrate : Z) (w : World) :
  classify m0 = MotionStart ->
  classify m1 = MotionEnd ->
  let w1 := exec (process_serial_message m0) w in
  let w2 := exec disconnect_serial w1 in
  let w3 := exec (connect_serial port baudrate None) w2 in
  let w4 := exec (process_serial_message m1) w3 in
  current_motion_start w3 = Some (clock w (S (ticks w)))
  /\ db w4
     = (db w
        ++ [ {| event_type := "motion_start"; message := m0;
                duration := None |};
             {| event_type := "motion_end"; message := m1;
                duration :=
                  Some (total_seconds
                          (clock w (S (ticks w3))
                           - clock w (S (ticks w)))) |} ])%list.
Proof.
  intros H0 H1 w1 w2 w3 w4.
  destruct (motion_start_effect m0 w H0) as (Hs1 & Hd1 & _ & _ & Hc1).
  fold w1 in Hs1, Hd1, Hc1.
  destruct (connection_keeps_motion port baudrate None w1)
    as ((Hs2 & Hd2 & Hc2 & _) & _). fold w2 in Hs2, Hd2, Hc2.
  destruct (connection_keeps_motion port baudrate None w2)
    as (_ & (Hs3 & Hd3 & Hc3 & _)). fold w3 in Hs3, Hd3, Hc3.
  assert (Hs : current_motion_start w3 = Some (clock w (S (ticks w))))
    by congruence.
  split; [exact Hs|].
  destruct (motion_end_effect m1 w3 _ H1 Hs) as (_ & Hd4 & _).
  fold w4 in Hd4.
  rewrite Hd4, Hd3, Hd2, Hd1, Hc3, Hc2, Hc1, <- !app_assoc. reflexivity.
Qed.

(** ** Connecting *)

(** X11. A successful [connect_serial] answers [True] and starts a session
    from any world: the port is open (one open before is closed first), both
    flags are set, the calibration state is reset, the reader is live, and
    exactly the connected status with the port's name and one system log
    entry are published.  The stored rows are untouched, and a client that
    connects from then on is told [connected]. *)
Theorem connect_opens_session (port : string) (baudrate : Z) (w : World) :
  let r := connect_serial port baudrate None w in
  fst r = true
  /\ ser (snd r) = Some true /\ serial_connected (snd r) = true
  /\ reading (snd r) = true /\ live (snd r) = true
  /\ calibration_start_time (snd r) = None
  /\ calibration_dots_received (snd r) = 0
  /\ emitted (snd r)
     = (emitted w
        ++ [ serial_status "connected" (present port);
             log_update "system" ("Connected to Arduino on " ++ port)
                        (clock w (ticks w)) None ])%list
  /\ db (snd r) = db w
  /\ handle_connect (snd r)
     = [ connection_status "connected";
         notification (serial_status "connected" absent) ].
Proof.
  run. destruct (is_open (ser w)); run_more;
    rewrite <- !app_assoc; repeat split.
Qed.

(** X12. A [connect_serial] whose port fails to open answers [False] and
    publishes the error text and one log entry.  A port that was open is
    closed by then, so the reader is no longer live and reads nothing more;
    yet [serial_connected] and [reading] keep the values they had, and a
    client that connects is told the status of before the attempt. *)
Theorem failed_connect_closes_port
        (port error : string) (baudrate : Z) (w : World)
        (wakeups : list (list (option ascii))) :
  let r := connect_serial port baudrate (Some error) w in
  fst r = false
  /\ is_open (ser (snd r)) = false /\ live (snd r) = false
  /\ serial_connected (snd r) = serial_connected w
  /\ reading (snd r) = reading w
  /\ handle_connect (snd r) = handle_connect w
  /\ emitted (snd r)
     = (emitted w
        ++ [ serial_error error;
             log_update "system" ("Connection failed: " ++ error)
                        (clock w (ticks w)) None ])%list
  /\ read_serial_data wakeups (snd r) = ("", snd r).
Proof.
  cbv zeta.
  assert (Hlive : live (snd (connect_serial port baudrate (Some error) w))
                  = false).
  { unfold live. run. destruct (ser w) as [[|]|] eqn:E; run_more;
      rewrite ?E; apply andb_false_r. }
  unfold read_serial_data. rewrite (read_loop_dead _ _ _ Hlive).
  split; [|split; [|split; [exact Hlive|]]].
  - run. destruct (is_open (ser w)); reflexivity.
  - run. destruct (ser w) as [[|]|] eqn:E; run_more; rewrite ?E;
      reflexivity.
  - run. destruct (is_open (ser w)); run_more;
      rewrite <- !app_assoc; repeat split.
Qed.

(** X13. After [disconnect_serial] the reader reads nothing: whatever bytes
    are waiting, it leaves at once with the world as the disconnection left
    it, and a client that connects is told [disconnected]. *)
Theorem disconnect_stops_reader
        (w : World) (wakeups : list (list (option ascii))) :
  let w' := exec disconnect_serial w in
  read_serial_data wakeups w' = ("", w')
  /\ handle_connect w'
     = [ connection_status "connected";
         notification (serial_status "disconnected" absent) ].
Proof.
  cbv zeta. split.
  - unfold read_serial_data. apply read_loop_dead.
    run. destruct (is_open (ser w)); reflexivity.
  - run. destruct (is_open (ser w)); reflexivity.
Qed.

(** ** One log entry for each line *)

(** X14. Every processed line publishes its [serial_data] first and, after
    it, exactly one log entry and no second [serial_data]; the type of the
    entry is [motion_start] or [motion_end] for the two motion lines and
    [system] for the three others, and its duration field is always empty. *)
Theorem one_log_entry_per_line (m : string) (w : World) :
  exists rest text t,
    emitted (exec (process_serial_message m) w)
    = (emitted w ++ serial_data m (clock w (ticks w)) :: rest)%list
    /\ log_entries rest = [log_update (log_type (classify m)) text t None]
    /\ flat_map (fun n => match n with serial_data l _ => [l] | _ => [] end)
                rest = [].
Proof.
  run_cases m w; rewrite <- !app_assoc; cbn [app];
    eexists; eexists; eexists;
    (split; [reflexivity|split; reflexivity]).
Qed.

(** ** The statistics *)

Lemma process_counts (m : string) (w : World) :
  let w' := exec (process_serial_message m) w in
  total_events w'
  = (total_events w + if is_motion_start m then 1 else 0)%nat
  /\ List.length (db w')
     = (List.length (db w) + if is_motion m then 1 else 0)%nat.
Proof.
  unfold total_events, is_motion_start, is_motion.
  run_cases m w; rewrite ?filter_app, ?length_app; cbn; split; lia.
Qed.

Lemma read_step_counts (read : option ascii) (buffer : string) (w : World) :
  let w' := exec (read_step read buffer) w in
  total_events w'
  = (total_events w
     + List.length (filter is_motion_start (lines_of [read] buffer)))%nat
  /\ List.length (db w')
     = (List.length (db w)
        + List.length (filter is_motion (lines_of [read] buffer)))%nat.
Proof.
  destruct read as [b|]; [|cbn; split; lia].
  cbv zeta. unfold exec. cbn [lines_of]. fold (terminates (Some b)).
  destruct (terminates (Some b)) eqn:Et.
  - rewrite read_step_terminator by exact Et. cbn [snd].
    rewrite app_nil_r.
    destruct (truthy (strip (buffer ++ decode b))); [|cbn; split; lia].
    pose proof (process_counts (strip (buffer ++ decode b)) w) as [H1 H2].
    cbn [filter].
    destruct (is_motion_start _), (is_motion _); cbn [List.length];
      split; assumption.
  - assert (Hdb : db (snd (read_step (Some b) buffer w)) = db w).
    { destruct (decode b =? ".")%string eqn:Ed;
        [destruct (contains "calibrating sensor" (buffer ++ ".")) eqn:Em|].
      - apply String.eqb_eq in Ed. rewrite (read_step_dot b buffer w Ed Em).
        cbn [snd].
        pose proof (progress_frame
                      (with_calibration_dots_received
                         (calibration_dots_received w + 1) w)) as Hp.
        cbv zeta in Hp.
        destruct Hp as (_ & _ & _ & _ & _ & _ & _ & _ & Hp & _).
        exact Hp.
      - apply String.eqb_eq in Ed.
        rewrite read_step_plain; [reflexivity|exact Et|].
        intros _; rewrite Ed; exact Em.
      - apply String.eqb_neq in Ed.
        rewrite read_step_plain; [reflexivity|exact Et|].
        intros E; contradiction. }
    unfold total_events. rewrite Hdb. cbn. split; lia.
Qed.

(** X15. The [total_events] of the statistics counts the motion starts: a
    run of the reader raises it by the number of framed lines that classify
    as a motion start, and raises the number of stored rows by the number of
    motion lines; after [clear_events] the count is 0. *)
Theorem total_events_counts_motion_starts
        (reads : list (option ascii)) (buffer : string) (w : World) :
  let w' := exec (drain reads buffer) w in
  total_events w'
  = (total_events w
     + List.length (filter is_motion_start (lines_of reads buffer)))%nat
  /\ List.length (db w')
     = (List.length (db w)
        + List.length (filter is_motion (lines_of reads buffer)))%nat
  /\ total_events (exec clear_events w') = O.
Proof.
  cbv zeta. split; [|split; [|reflexivity]];
    revert buffer w; induction reads as [|read rest IH]; intros buffer w;
    try (cbn; lia);
    unfold exec; rewrite drain_cons;
    rewrite (lines_of_cons read rest buffer w), filter_app, length_app;
    fold (exec (drain rest (fst (read_step read buffer w)))
               (exec (read_step read buffer) w));
    rewrite IH;
    destruct (read_step_counts read buffer w) as [H1 H2];
    rewrite ?H1, ?H2; lia.
Qed.

(** ** The bounds of the progress bar *)

Lemma percent_in_range (d : Z) :
  0 < d ->
  (0 <= Qmin 100 (inject_Z d / inject_Z total_calibration_time * 100)
   /\ Qmin 100 (inject_Z d / inject_Z total_calibration_time * 100) <= 100)%Q.
Proof.
  intros Hd. split; [|apply Q.le_min_l].
  apply Q.min_glb; [discriminate|].
  unfold Qle, Qdiv, Qmult, Qinv, inject_Z, total_calibration_time.
  cbn. lia.
Qed.

Lemma progress_step_in_range (w : World) :
  exists published,
    emitted (exec update_calibration_progress w)
    = (emitted w ++ published)%list
    /\ Forall progress_in_range published.
Proof.
  run. destruct (0 <? calibration_dots_received w) eqn:E; run_more.
  - apply Z.ltb_lt in E. eexists. split; [reflexivity|].
    constructor; [|constructor]. unfold progress_in_range.
    split; [apply percent_in_range, E|].
    unfold total_calibration_time. lia.
  - exists []. split; [symmetry; apply app_nil_r|constructor].
Qed.

Lemma process_in_range (m : string) (w : World) :
  exists published,
    emitted (exec (process_serial_message m) w)
    = (emitted w ++ published)%list
    /\ Forall progress_in_range published.
Proof.
  run_cases m w; rewrite <- !app_assoc; eexists;
    (split; [reflexivity|]);
    repeat (apply Forall_cons || apply Forall_nil);
    unfold progress_in_range, total_calibration_time;
    try exact I; repeat split; try discriminate; lia.
Qed.

Lemma read_step_in_range (read : option ascii) (buffer : string)
      (w : World) :
  exists published,
    emitted (exec (read_step read buffer) w) = (emitted w ++ published)%list
    /\ Forall progress_in_range published.
Proof.
  assert (Hsame : exists published : list Notification,
             emitted w = (emitted w ++ published)%list
             /\ Forall progress_in_range published)
    by (exists []; split; [symmetry; apply app_nil_r|constructor]).
  destruct read as [b|]; [|exact Hsame]. unfold exec.
  destruct (terminates (Some b)) eqn:Et.
  - rewrite read_step_terminator by exact Et. cbn [snd].
    destruct (truthy (strip (buffer ++ decode b))); [|exact Hsame].
    apply process_in_range.
  - destruct (decode b =? ".")%string eqn:Ed;
      [destruct (contains "calibrating sensor" (buffer ++ ".")) eqn:Em|].
    + apply String.eqb_eq in Ed. rewrite (read_step_dot b buffer w Ed Em).
      cbn [snd].
      apply (progress_step_in_range
               (with_calibration_dots_received
                  (calibration_dots_received w + 1) w)).
    + apply String.eqb_eq in Ed.
      rewrite read_step_plain; [exact Hsame|exact Et|].
      intros _; rewrite Ed; exact Em.
    + apply String.eqb_neq in Ed.
      rewrite read_step_plain; [exact Hsame|exact Et|].
      intros E; contradiction.
Qed.

(** X16. Whatever the reader reads, from whatever world, every progress
    notification it publishes is within bounds: the percentage lies between
    0 and 100 and the seconds remaining between 0 and 30, however many dots
    arrive. *)
Theorem published_progress_in_range
        (reads : list (option ascii)) (buffer : string) (w : World) :
  exists published,
    emitted (exec (drain reads buffer) w) = (emitted w ++ published)%list
    /\ Forall progress_in_range published.
Proof.
  revert buffer w. induction reads as [|read rest IH]; intros buffer w.
  - exists []. split; [symmetry; apply app_nil_r|constructor].
  - unfold exec. rewrite drain_cons.
    destruct (IH (fst (read_step read buffer w))
                 (exec (read_step read buffer) w)) as (p2 & Hp2 & Hf2).
    destruct (read_step_in_range read buffer w) as (p1 & Hp1 & Hf1).
    exists (p1 ++ p2)%list. unfold exec in *.
    rewrite Hp2, Hp1, app_assoc. split; [reflexivity|].
    apply Forall_app; split; assumption.
Qed.

End Reader.

(** ** Instances and counterexamples

    The examples run in the world the module starts in, under
    [seconds_clock], or in that world after a successful [connect_serial]. *)

(** C1, instance: a line with both motion markers, in mixed case, and no
    marker of higher rank. *)
Lemma classifier_first_match_wins_witness :
  let line := "Motion Detected, then motion ended" in
  let w := initial_world seconds_clock in
  contains_ignoring_case "motion detected" line = true
  /\ contains_ignoring_case "motion ended" line = true
  /\ contains_ignoring_case "calibrating sensor" line = false
  /\ contains_ignoring_case "sensor active" line = false
  /\ classify line = MotionStart
  /\ db (exec (process_serial_message plain_format_1f line) w)
     = [{| event_type := "motion_start"; message := line;
           duration := None |}].
Proof.
  intros line w.
  destruct (proj2 (proj2 (proj2
              (classifier_first_match_wins plain_format_1f line w)))
              eq_refl eq_refl eq_refl eq_refl) as [Hclass Hdb].
  do 4 (split; [reflexivity|]).
  split; [exact Hclass|exact Hdb].
Defined.

(** C1, counterexample to the claim as first stated: this line contains
    both motion markers, yet it classifies as sensor active, by the rule
    that ranks above them, and stores no motion row. *)
Lemma both_motion_markers_not_motion_start :
  contains_ignoring_case "motion detected"
    "sensor active motion detected motion ended" = true
  /\ contains_ignoring_case "motion ended"
       "sensor active motion detected motion ended" = true
  /\ classify "sensor active motion detected motion ended" = SensorActive
  /\ db (exec (process_serial_message plain_format_1f
                 "sensor active motion detected motion ended")
              (initial_world seconds_clock)) = [].
Proof. repeat split. Qed.

(** C2, counterexample to the claim as first stated: two motion starts,
    classified when the clock reads seconds 1 and 4, and then the next
    motion end, classified at second 7.  For the first start [T0] is second
    1 and [T1] second 7, yet the duration published and stored is 3 seconds,
    not [T1 - T0] = 6: the second start has overwritten the first. *)
Lemma second_start_overwrites_first :
  let w := initial_world seconds_clock in
  let w1 := exec (process_serial_message plain_format_1f
                    "motion detected") w in
  let w2 := exec (process_serial_message plain_format_1f
                    "Motion detected!") w1 in
  let w3 := exec (process_serial_message plain_format_1f
                    "motion ended") w2 in
  classify "motion detected" = MotionStart
  /\ classify "Motion detected!" = MotionStart
  /\ classify "motion ended" = MotionEnd
  /\ current_motion_start w1 = Some 1000000
  /\ current_motion_start w2 = Some 4000000
  /\ clock w2 (S (ticks w2)) = 7000000
  /\ db w3
     = [ {| event_type := "motion_start"; message := "motion detected";
            duration := None |};
         {| event_type := "motion_start"; message := "Motion detected!";
            duration := None |};
         {| event_type := "motion_end"; message := "motion ended";
            duration := Some (total_seconds 3000000) |} ]
  /\ In (motion_status "ended" "motion ended"
                       (present (Some (total_seconds 3000000))))
        (emitted w3)
  /\ Qeq_bool (total_seconds 3000000)
              (total_seconds (7000000 - 1000000)) = false.
Proof.
  vm_compute. repeat split. do 9 right. left. reflexivity.
Qed.

(** C2, instance: a motion start, a line of chatter, a motion end; the
    clock is read at second 1 for the start and at second 6 for the end. *)
Lemma motion_duration_witness :
  let w := initial_world seconds_clock in
  let w2 := exec (drain plain_format_1f (bytes ("hello" ++ LF)) "")
                 (exec (process_serial_message plain_format_1f
                          "MOTION DETECTED") w) in
  classify "MOTION DETECTED" = MotionStart
  /\ classify "motion ended" = MotionEnd
  /\ Forall not_motion (lines_of (bytes ("hello" ++ LF)) "")
  /\ current_motion_start w = None
  /\ db (exec (process_serial_message plain_format_1f "motion ended") w2)
     = (db w2 ++ [{| event_type := "motion_end"; message := "motion ended";
                     duration := Some (total_seconds (6000000 - 1000000)) |}])%list
  /\ db (exec (process_serial_message plain_format_1f "motion ended") w)
     = [{| event_type := "motion_end"; message := "motion ended";
           duration := None |}].
Proof.
  intros w w2.
  assert (Hmid : Forall not_motion (lines_of (bytes ("hello" ++ LF)) "")).
  { repeat constructor; discriminate. }
  pose proof (motion_duration plain_format_1f
                "MOTION DETECTED" "motion ended" (bytes ("hello" ++ LF)) ""
                w w eq_refl eq_refl Hmid eq_refl) as H.
  cbv zeta in H.
  destruct H as (_ & _ & Hdb & _ & _ & Hlone & _).
  split; [reflexivity|]. split; [reflexivity|]. split; [exact Hmid|].
  split; [reflexivity|]. split; [exact Hdb|exact Hlone].
Defined.

(** C3, instance: with the marker in the buffer, a dot adds one to the
    counter and leaves the start time as it was. *)
Lemma dots_reset_and_increment_witness :
  let w := initial_world seconds_clock in
  let w' := exec (read_step plain_format_1f (Some "."%char)
                            "calibrating sensor") w in
  contains "calibrating sensor" ("calibrating sensor" ++ ".") = true
  /\ calibration_dots_received w' = calibration_dots_received w + 1
  /\ calibration_start_time w' = calibration_start_time w.
Proof.
  intros w w'. split; [reflexivity|].
  exact (proj1 (proj2 (dots_reset_and_increment plain_format_1f
                         (Some "."%char) "calibrating sensor" w))
               (conj eq_refl eq_refl)).
Defined.

(** C3, counterexample to the claim as first stated: in a session just
    connected the device sends its calibration line.  When the first dot
    arrives the line is not terminated, so no calibration start has been
    classified and no start time is recorded; the counter is incremented all
    the same. *)
Lemma dots_counted_with_no_start_time :
  let w1 := exec (connect_serial "COM10" 9600 None)
                 (initial_world seconds_clock) in
  let r := read_serial_data plain_format_1f [bytes "calibrating sensor"] w1 in
  let w' := exec (read_step plain_format_1f (Some "."%char) (fst r))
                 (snd r) in
  fst r = "calibrating sensor"
  /\ calibration_start_time (snd r) = None
  /\ calibration_dots_received (snd r) = 0
  /\ calibration_dots_received w' = 1
  /\ calibration_start_time w' = None.
Proof. vm_compute. repeat split. Qed.

(** C4, instance: the first dot of a session, and the 45th. *)
Lemma dot_publishes_progress_witness :
  let w1 := initial_world seconds_clock in
  let w2 := with_calibration_dots_received 44 w1 in
  0 <= calibration_dots_received w1
  /\ calibration_dots_received w1 <= calibration_dots_received w2
  /\ contains "calibrating sensor" ("calibrating sensor" ++ ".") = true
  /\ emitted (exec (read_step plain_format_1f (Some "."%char)
                              "calibrating sensor") w2)
     = [calibration_progress 100 0 true (present 45)].
Proof.
  intros w1 w2.
  assert (H0 : 0 <= calibration_dots_received w1) by (cbn; lia).
  assert (Hle : calibration_dots_received w1 <= calibration_dots_received w2)
    by (cbn; lia).
  destruct (dot_publishes_progress plain_format_1f
              "calibrating sensor" "calibrating sensor" w1 w2
              H0 Hle eq_refl eq_refl) as (_ & H2 & _).
  split; [exact H0|]. split; [exact Hle|]. split; [reflexivity|].
  unfold exec. rewrite H2. reflexivity.
Defined.

(** C6, instance: a line of two spaces, then the line ["hi"]. *)
Lemma empty_line_resets_buffer_witness :
  let b := ascii_of_nat 10 in
  let w := initial_world seconds_clock in
  let rest := bytes ("hi" ++ LF) in
  (decode b = LF \/ decode b = CR)
  /\ strip ("  " ++ decode b) = ""
  /\ read_step plain_format_1f (Some b) "  " w = ("", w)
  /\ drain plain_format_1f (Some b :: rest) "  " w
     = drain plain_format_1f rest "" w.
Proof.
  intros b w rest.
  assert (Hterm : decode b = LF \/ decode b = CR) by (left; reflexivity).
  split; [exact Hterm|]. split; [reflexivity|].
  exact (empty_line_resets_buffer plain_format_1f b "  " w rest
                                  Hterm eq_refl).
Defined.

(** C7, counterexample to the claim as first stated: with the marker in
    capitals the dots of the first line publish nothing, since the reader
    looks for the lowercase marker in the raw buffer; the line is still
    classified as a calibration start once terminated, and the second line
    publishes the terminal notification. *)
Lemma capital_marker_publishes_no_dot_progress :
  let w1 := exec (connect_serial "COM10" 9600 None)
                 (initial_world seconds_clock) in
  let input :=
    bytes ("CALIBRATING SENSOR...." ++ LF ++ "sensor active" ++ LF) in
  emitted (exec (read_serial_data plain_format_1f [input]) w1)
  = (emitted w1
     ++ [ serial_data "CALIBRATING SENSOR...." 1000000;
          sensor_status "calibrating";
          log_update "system" "Sensor calibration started..." 3000000 None;
          serial_data "sensor active" 4000000;
          sensor_status "active";
          calibration_progress 100 0 false absent;
          log_update "system"
            "✅ Sensor active and armed - Ready for detection"
            5000000 None ])%list.
Proof. vm_compute. reflexivity. Qed.

(** C8, instance: the buffer ["  hi "] and a line feed. *)
Lemma raw_data_carries_trimmed_line_witness :
  let b := ascii_of_nat 10 in
  let w := initial_world seconds_clock in
  (decode b = LF \/ decode b = CR)
  /\ strip ("  hi " ++ decode b) <> ""
  /\ exists rest,
       emitted (exec (read_step plain_format_1f (Some b) "  hi ") w)
       = serial_data "hi" 0 :: rest.
Proof.
  intros b w.
  assert (Hterm : decode b = LF \/ decode b = CR) by (left; reflexivity).
  assert (Hline : strip ("  hi " ++ decode b) <> "") by discriminate.
  split; [exact Hterm|]. split; [exact Hline|].
  exact (raw_data_carries_trimmed_line plain_format_1f b "  hi " w
                                       Hterm Hline).
Defined.

(** C8, counterexample to the claim as first stated: the message published
    for the buffer ["  hi "] and a line feed is ["hi"], which is neither the
    buffer as accumulated nor the buffer with its terminator. *)
Lemma raw_data_message_is_not_the_buffer :
  let b := ascii_of_nat 10 in
  let w := initial_world seconds_clock in
  emitted (exec (read_step plain_format_1f (Some b) "  hi ") w)
  = [ serial_data "hi" 0;
      log_update "system" "Arduino: hi" 1000000 None ]
  /\ ("hi" =? "  hi ")%string = false
  /\ ("hi" =? "  hi " ++ decode b)%string = false.
Proof. vm_compute. repeat split. Qed.

(** ** Instances of the further properties *)

(** X3, instance: the first bytes of a line that is not yet terminated. *)
Lemma partial_line_is_silent_witness :
  let w := initial_world seconds_clock in
  Forall (fun read => terminates read = false) (bytes "MOTION det")
  /\ contains "calibrating sensor" ("" ++ decoded (bytes "MOTION det"))
     = false
  /\ drain plain_format_1f (bytes "MOTION det") "" w = ("MOTION det", w).
Proof.
  intros w.
  assert (Ht : Forall (fun read => terminates read = false)
                      (bytes "MOTION det")) by (repeat constructor).
  split; [exact Ht|]. split; [reflexivity|].
  exact (partial_line_is_silent plain_format_1f (bytes "MOTION det") "" w
                                Ht eq_refl).
Defined.

(** X4, instance: three dots after the marker, from a counter at 0. *)
Lemma dots_publish_one_each_witness :
  let w := initial_world seconds_clock in
  let r := drain plain_format_1f (repeat (Some "."%char) 3)
                 "calibrating sensor " w in
  0 <= calibration_dots_received w
  /\ contains "calibrating sensor" "calibrating sensor " = true
  /\ fst r = "calibrating sensor ..."
  /\ calibration_dots_received (snd r) = 3
  /\ List.length (emitted (snd r)) = 3%nat.
Proof.
  intros w r.
  assert (H0 : 0 <= calibration_dots_received w) by (cbn; lia).
  split; [exact H0|]. split; [reflexivity|].
  subst r.
  rewrite (dots_publish_one_each plain_format_1f 3 "calibrating sensor " w
                                 H0 eq_refl).
  repeat split.
Defined.

(** X8, instance: two starts, read at seconds 1 and 4, and an end read at
    second 7. *)
Lemma last_motion_start_wins_witness :
  let w := initial_world seconds_clock in
  classify "motion detected" = MotionStart
  /\ classify "Motion detected!" = MotionStart
  /\ classify "motion ended" = MotionEnd
  /\ db (exec (process_serial_message plain_format_1f "motion ended")
           (exec (process_serial_message plain_format_1f "Motion detected!")
              (exec (process_serial_message plain_format_1f
                       "motion detected") w)))
     = [ {| event_type := "motion_start"; message := "motion detected";
            duration := None |};
         {| event_type := "motion_start"; message := "Motion detected!";
            duration := None |};
         {| event_type := "motion_end"; message := "motion ended";
            duration := Some (total_seconds (7000000 - 4000000)) |} ].
Proof.
  intros w. do 3 (split; [reflexivity|]).
  exact (proj1 (last_motion_start_wins plain_format_1f
                  "motion detected" "Motion detected!" "motion ended" w
                  eq_refl eq_refl eq_refl)).
Defined.

(** X9, instance: the start was recorded at second 1 and the clock reads
    second 1 again for the end. *)
Lemma zero_duration_is_not_logged_witness :
  let w := with_current_motion_start (Some 1000000)
             (initial_world seconds_clock) in
  classify "motion ended" = MotionEnd
  /\ current_motion_start w = Some 1000000
  /\ emitted (exec (process_serial_message plain_format_1f "motion ended") w)
     = [ serial_data "motion ended" 0;
         motion_status "ended" "motion ended"
                       (present (Some (total_seconds 0)));
         log_update "motion_end" "Motion ended" 2000000 None ]
  /\ db (exec (process_serial_message plain_format_1f "motion ended") w)
     = [{| event_type := "motion_end"; message := "motion ended";
           duration := Some (total_seconds 0) |}].
Proof.
  intros w. do 2 (split; [reflexivity|]).
  destruct (zero_duration_is_not_logged plain_format_1f
              "motion ended" w 1000000 eq_refl eq_refl) as (He & Hd & _).
  split; [exact He|exact Hd].
Defined.

(** X10, instance: a start read at second 1, a disconnection, a
    connection, and an end read at second 6. *)
Lemma motion_start_survives_reconnect_witness :
  let w := initial_world seconds_clock in
  classify "motion detected" = MotionStart
  /\ classify "motion ended" = MotionEnd
  /\ db (exec (process_serial_message plain_format_1f "motion ended")
           (exec (connect_serial "COM10" 9600 None)
              (exec disconnect_serial
                 (exec (process_serial_message plain_format_1f
                          "motion detected") w))))
     = [ {| event_type := "motion_start"; message := "motion detected";
            duration := None |};
         {| event_type := "motion_end"; message := "motion ended";
            duration := Some (total_seconds (6000000 - 1000000)) |} ].
Proof.
  intros w. do 2 (split; [reflexivity|]).
  exact (proj2 (motion_start_survives_reconnect plain_format_1f
                  "motion detected" "motion ended" "COM10" 9600 w
                  eq_refl eq_refl)).
Defined.

(** X17, instance: 45 dots. *)
Lemma percent_binary64_clamped_monotone_witness :
  1 <= 45 <= 10000
  /\ (percent_binary64 45 <=? percent_binary64 46)%float = true
  /\ (percent_binary64 45 =? 100)%float = true.
Proof.
  assert (H : 1 <= 45 <= 10000) by lia.
  split; [exact H|].
  exact (percent_binary64_clamped_monotone 45 H).
Defined.
